(** * PRICE-SCRAPER: the extraction worker (scraperWorker.js)

    A shallow embedding of the worker's scrolling, extraction, retry and
    pagination code, with the remote page as an explicit world that answers
    every call, and the properties of the design document proved over it. *)

From Stdlib Require Import ZArith NArith List String Ascii Bool Lia Arith.
From Stdlib Require Import DecimalString.
Import ListNotations.

Set Implicit Arguments.

(** ** JavaScript strings

    A JavaScript string is a sequence of UTF-16 code units.  Text read from
    the page is kept in that form; selectors, paths and URLs written in the
    source stay Rocq strings. *)

Module Js.

Definition jsstring := list N.

Definition str (s : string) : jsstring :=
  map N_of_ascii (list_ascii_of_string s).

(** [\d] of a regular expression without the unicode flag: 0-9. *)
Definition isDigit (c : N) : bool := ((48 <=? c) && (c <=? 57))%N.

(** White space and line terminators removed by [String.prototype.trim]. *)
Definition isWhiteSpace (c : N) : bool :=
  ((9 <=? c) && (c <=? 13) || (c =? 32) || (c =? 160) || (c =? 5760)
   || (8192 <=? c) && (c <=? 8202) || (c =? 8232) || (c =? 8233)
   || (c =? 8239) || (c =? 8287) || (c =? 12288) || (c =? 65279))%N.

Fixpoint trimStart (s : jsstring) : jsstring :=
  match s with
  | [] => []
  | c :: r => if isWhiteSpace c then trimStart r else s
  end.

Definition trimEnd (s : jsstring) : jsstring := rev (trimStart (rev s)).

Definition trim (s : jsstring) : jsstring := trimEnd (trimStart s).

(** [s.replace(/\D+/g, rep)]: every maximal run of non-digits is replaced by
    [rep]; [inRun] tells that the run being read has been replaced already. *)
Fixpoint replaceRuns (rep : jsstring) (inRun : bool) (s : jsstring) : jsstring :=
  match s with
  | [] => []
  | c :: r =>
      if isDigit c then c :: replaceRuns rep false r
      else if inRun then replaceRuns rep true r
           else rep ++ replaceRuns rep true r
  end.

Definition replaceNonDigits (s rep : jsstring) : jsstring :=
  replaceRuns rep false s.

(** [s.replace(/,/g, " ")] of writeToCSV. *)
Definition replaceCommas (s : jsstring) : jsstring :=
  map (fun c => if (c =? 44)%N then 32%N else c) s.

(** [a || b] on strings: the empty string is the only falsy one. *)
Definition orElse (a b : jsstring) : jsstring :=
  match a with
  | [] => b
  | _ => a
  end.

(** [!s] on a string. *)
Definition isEmpty (s : jsstring) : bool :=
  match s with
  | [] => true
  | _ => false
  end.

Definition jsstring_eqb (a b : jsstring) : bool :=
  if list_eq_dec N.eq_dec a b then true else false.

End Js.

Import Js.

(** ** The item card and the record extracted from it *)

Record Element := { textContent : jsstring }.

(** A card is known by what [card.querySelector(sel)] finds in it. *)
Record Card := { querySelector : string -> option Element }.

Record Product := { productName : jsstring; price : jsstring }.

Definition getText (card : Card) (sel : string) : jsstring :=
  match querySelector card sel with
  | Some el => trim (textContent el)
  | None => []
  end.

Definition extractFieldsFromCard (card : Card) : Product :=
  let productName := getText card ".acl-product-card__title--product-name" in
  let rawDollarText := getText card ".acl-product-card__price-dollars" in
  let rawCentsText := getText card ".acl-product-card__price-cents" in
  let dollarDigits := orElse (replaceNonDigits rawDollarText []) (str "0") in
  let centsDigits := orElse (replaceNonDigits rawCentsText []) (str "00") in
  let finalPrice := trim (str "$" ++ dollarDigits ++ str "." ++ centsDigits) in
  {| productName := productName; price := finalPrice |}.

(** The filter of the retry loop:
    [productData.filter((p) => !p.productName || p.price === "$0.00")]. *)
Definition isInvalidEntry (p : Product) : bool :=
  isEmpty (productName p) || jsstring_eqb (price p) (str "$0.00").

Definition invalidEntries (productData : list Product) : list Product :=
  filter isInvalidEntry productData.

(** [invalidEntries.length > 0] *)
Definition hasInvalidEntries (productData : list Product) : bool :=
  0 <? List.length (invalidEntries productData).

(** A card built from the texts of its three fields, for examples. *)
Definition cardOf (title dollars cents : option string) : Card :=
  {| querySelector := fun sel =>
       let field (o : option string) :=
         option_map (fun t => {| textContent := str t |}) o in
       if String.eqb sel ".acl-product-card__title--product-name" then field title
       else if String.eqb sel ".acl-product-card__price-dollars" then field dollars
       else if String.eqb sel ".acl-product-card__price-cents" then field cents
       else None |}.

(** ** The remote browser as a world

    Every call the worker makes on puppeteer, the file system or the shell
    is a [Call]; the world answers it with a value or throws, and changes
    as it does.  Nothing is assumed of the answers. *)

Definition Error := string.
Definition Browser := nat.
Definition Page := nat.
Definition ElementHandle := nat.

(** The calls, as the worker writes them:
    - [Connect]: [puppeteer.connect({browserWSEndpoint, protocolTimeout})];
    - [EvalScrollHeight]: [page.evaluate("document.body.scrollHeight")];
    - [EvalScrollBy]: [page.evaluate((step) => window.scrollBy(0, step), step)];
    - [CountCards]: [page.$$eval("article[acl-product-card]", (cards) =>
      cards.length)];
    - [QueryCards]: the cards [page.$$eval("article[acl-product-card]", ...)]
      hands to its callback, in document order; the callback maps
      [extractFieldsFromCard] over them inside the page;
    - [Screenshot]: [page.screenshot] to the path debug_page_<pageCount>.png;
    - [QueryNext]: [page.$] of the link labelled "Next Page";
    - [HasDisabled]: [page.evaluate((btn) => btn.hasAttribute("disabled"),
      nextButton)];
    - [ClickAndWaitForNavigation]: the [Promise.all] of [nextButton.click()]
      and [page.waitForNavigation({waitUntil: "networkidle0", timeout: 60000})];
    - [WriteFile]: [fs.writeFileSync(outPath, csvContent, "utf8")];
    - [ExecPython]: [exec] of the sorting script on [outPath];
    - the others are the puppeteer methods of the same name. *)
Inductive Call : Type -> Type :=
| Connect (auth : string) : Call Browser
| NewPage (browser : Browser) : Call Page
| SetDefaultNavigationTimeout (page : Page) (ms : Z) : Call unit
| Goto (page : Page) (url : string) (waitUntil : option string) : Call unit
| WaitForSelector (page : Page) (sel : string) : Call unit
| Click (page : Page) (sel : string) : Call unit
| TypeText (page : Page) (sel text : string) : Call unit
| KeyboardPress (page : Page) (key : string) : Call unit
| ClosePage (page : Page) : Call unit
| EvalScrollHeight (page : Page) : Call Z
| EvalScrollBy (page : Page) (step : Z) : Call unit
| CountCards (page : Page) : Call Z
| QueryCards (page : Page) : Call (list Card)
| Screenshot (page : Page) (pageCount : nat) : Call unit
| QueryNext (page : Page) : Call (option ElementHandle)
| HasDisabled (page : Page) (btn : ElementHandle) : Call bool
| ClickAndWaitForNavigation (page : Page) (btn : ElementHandle) : Call unit
| WriteFile (outPath : string) (csvContent : jsstring) : Call unit
| ExecPython (pythonScript outPath : string) : Call unit
| CloseBrowser (browser : Browser) : Call unit.

(** What console.log and console.error print: the fixed text (without the
    worker prefix and the interpolated strings) and the numbers put in it. *)
Inductive LogMsg :=
| Info (text : string) (values : list Z)
| ProductLine (i : nat) (p : Product)
| Json (allProducts : list Product)
| ErrorMsg (text : string) (error : Error).

Inductive Event :=
| Did (T : Type) (c : Call T) (r : Error + T)
| Slept (ms : Z)
| Logged (m : LogMsg)
| Exited (code : Z).

Definition Trace := list Event.

Class Env := {
  World : Type;
  (** the answer of the world to a call, and the world after it *)
  answer : forall T, Call T -> World -> (Error + T) * World;
  (** the world after [setTimeout] has let [ms] milliseconds pass *)
  elapse : Z -> World -> World
}.

Inductive Outcome (A : Type) :=
| Ok (a : A)
| Throw (e : Error)
| Diverge.

Arguments Throw {A} e.
Arguments Diverge {A}.

(** ** The monad of the worker: world passing, exceptions, a trace of what
    was done, and [Diverge] for a loop that has used up its fuel. *)

Section Monad.
Context {E : Env}.

Record Run (A : Type) := { outcome : Outcome A; world : World; trace : Trace }.

Definition M (A : Type) := World -> Run A.

Definition ret {A} (a : A) : M A :=
  fun w => {| outcome := Ok a; world := w; trace := [] |}.

Definition bind {A B} (c : M A) (f : A -> M B) : M B :=
  fun w =>
    let r := c w in
    match outcome r with
    | Ok a =>
        let r2 := f a (world r) in
        {| outcome := outcome r2; world := world r2; trace := trace r ++ trace r2 |}
    | Throw e => {| outcome := Throw e; world := world r; trace := trace r |}
    | Diverge => {| outcome := Diverge; world := world r; trace := trace r |}
    end.

Definition diverge {A} : M A :=
  fun w => {| outcome := Diverge; world := w; trace := [] |}.

(** [await] of a call on the world. *)
Definition perform {T} (c : Call T) : M T :=
  fun w =>
    let (r, w') := answer c w in
    {| outcome := match r with inl e => Throw e | inr v => Ok v end;
       world := w';
       trace := [Did c r] |}.

(** [await delay(ms)] *)
Definition delay (ms : Z) : M unit :=
  fun w => {| outcome := Ok tt; world := elapse ms w; trace := [Slept ms] |}.

Definition log (m : LogMsg) : M unit :=
  fun w => {| outcome := Ok tt; world := w; trace := [Logged m] |}.

(** [process.exit(code)] *)
Definition exit (code : Z) : M unit :=
  fun w => {| outcome := Ok tt; world := w; trace := [Exited code] |}.

Definition when (b : bool) (c : M unit) : M unit :=
  if b then c else ret tt.

(** [try { body } catch (e) { handler e }] *)
Definition tryCatch {A} (body : M A) (handler : Error -> M A) : M A :=
  fun w =>
    let r := body w in
    match outcome r with
    | Throw e =>
        let r2 := handler e (world r) in
        {| outcome := outcome r2; world := world r2; trace := trace r ++ trace r2 |}
    | _ => r
    end.

(** [try { body } finally { fin }]: [fin] runs after a return and after a
    throw alike, and the completion of [body] stands unless [fin] throws. *)
Definition tryFinally {A} (body : M A) (fin : M unit) : M A :=
  fun w =>
    let r := body w in
    match outcome r with
    | Diverge => r
    | o =>
        let r2 := fin (world r) in
        {| outcome := match outcome r2 with
                      | Ok _ => o
                      | Throw e => Throw e
                      | Diverge => Diverge
                      end;
           world := world r2;
           trace := trace r ++ trace r2 |}
    end.

Inductive Step (S A : Type) :=
| Continue (s : S)
| Break (a : A).

Arguments Continue {S A} s.
Arguments Break {S A} a.

(** [while (cond) { body }] on the variables [s] of the loop. *)
Fixpoint while (S : Type) (fuel : nat) (cond : S -> bool) (body : S -> M S)
    (s : S) : M S :=
  match fuel with
  | O => diverge
  | Datatypes.S fuel' =>
      if cond s then bind (body s) (while fuel' cond body) else ret s
  end.

(** [while (true) { body }], left by [break]. *)
Fixpoint loop (S A : Type) (fuel : nat) (body : S -> M (Step S A)) (s : S) : M A :=
  match fuel with
  | O => diverge
  | Datatypes.S fuel' =>
      bind (body s) (fun r =>
        match r with
        | Continue s' => loop fuel' body s'
        | Break a => ret a
        end)
  end.

End Monad.

Arguments Continue {S A} s.
Arguments Break {S A} a.

Declare Scope worker_scope.
Delimit Scope worker_scope with worker.
Notation "x <- c1 ;; c2" := (bind c1 (fun x => c2))
  (at level 61, c1 at next level, right associativity) : worker_scope.
Notation "c1 ;; c2" := (bind c1 (fun _ => c2))
  (at level 61, right associativity) : worker_scope.
Open Scope worker_scope.

(** ** scraperWorker.js *)

(** The arguments the worker gets from cli.js through [process.argv]. *)
Record Argv := {
  workerId : string;
  url : string;
  csvName : string;
  verbose : bool
}.

Record StabilityState := { stableCountRepeats : nat; lastCount : Z }.

Record RetryState := {
  validDataFound : bool;
  attempts : nat;
  productData : list Product
}.

Definition MAX_PAGES : nat := 20.

Section Worker.
Context {E : Env}.
Variable argv : Argv.
(** The credentials exported by auth.js. *)
Variable AUTH : string.

(** The loop of [scrollUntilNoChange] on [previousHeight]. *)
Definition scrollOnce (page : Page) (scrollStep scrollDelay previousHeight : Z)
    : M (Step Z unit) :=
  perform (EvalScrollBy page scrollStep);;
  delay scrollDelay;;
  currentHeight <- perform (EvalScrollHeight page);;
  if (currentHeight =? previousHeight)%Z then ret (Break tt)
  else ret (Continue currentHeight).

Definition scrollUntilNoChange (fuel : nat) (page : Page)
    (scrollStep scrollDelay : Z) : M unit :=
  previousHeight <- perform (EvalScrollHeight page);;
  loop fuel (scrollOnce page scrollStep scrollDelay) previousHeight.

(** The body of the loop of [scrollAndWaitForStability]. *)
Definition stabilityCheck (fuel : nat) (page : Page) (verbose' : bool)
    (st : StabilityState) : M StabilityState :=
  scrollUntilNoChange fuel page 1000 500;;
  delay 2000;;
  currentCount <- perform (CountCards page);;
  when verbose' (log (Info "Currently detected product cards" [currentCount]));;
  if (currentCount =? lastCount st)%Z
  then ret {| stableCountRepeats := S (stableCountRepeats st);
              lastCount := lastCount st |}
  else ret {| stableCountRepeats := 0; lastCount := currentCount |}.

Definition scrollAndWaitForStability (fuel : nat) (page : Page)
    (maxRepeats : nat) (verbose' : bool) : M unit :=
  st <- while fuel (fun st => stableCountRepeats st <? maxRepeats)
          (stabilityCheck fuel page verbose')
          {| stableCountRepeats := 0; lastCount := 0 |};;
  when verbose' (log (Info "Final stable product card count" [lastCount st])).

Definition connectToBrowser (auth : string) (verbose' : bool) : M Browser :=
  when verbose' (log (Info "Connecting to remote browser..." []));;
  browser <- perform (Connect auth);;
  when verbose' (log (Info "Successfully connected to remote browser." []));;
  ret browser.

(** The selectors are written without their inner double quotes. *)
Definition changeStore (page : Page) (location : string) : M unit :=
  when (verbose argv) (log (Info "Attempting to change store to location" []));;
  perform (WaitForSelector page "acl-store-hours-menu[role=button]");;
  when (verbose argv) (log (Info "Found 'Change Store' button. Clicking..." []));;
  perform (Click page "acl-store-hours-menu[role=button]");;
  when (verbose argv) (log (Info "Typing location" []));;
  perform
    (WaitForSelector page
       "input.hdca-input[placeholder=Postal Code, City, or Store Number]");;
  perform
    (TypeText page
       "input.hdca-input[placeholder=Postal Code, City, or Store Number]"
       location);;
  when (verbose argv) (log (Info "Location typed. Pressing 'Enter'..." []));;
  perform (KeyboardPress page "Enter");;
  when (verbose argv) (log (Info "Waiting for results to load..." []));;
  delay 5000;;
  when (verbose argv)
    (log (Info "Attempting to click primary 'Set Store' button..." []));;
  perform (WaitForSelector page "button.acl-button--theme--primary");;
  perform (Click page "button.acl-button--theme--primary");;
  when (verbose argv)
    (log (Info "Store change request submitted. Waiting a few seconds..." []));;
  delay 5000;;
  when (verbose argv) (log (Info "Store successfully changed." [])).

Definition includes (s sub : string) : bool :=
  match String.index 0 sub s with
  | Some _ => true
  | None => false
  end.

Definition csvRow (item : Product) : jsstring :=
  replaceCommas (productName item) ++ str "," ++ replaceCommas (price item)
  ++ [10%N].

Definition writeToCSV (data : list Product) (outPath : string) : M unit :=
  let csvContent :=
    fold_left (fun csv item => csv ++ csvRow item) data
      (str "product_name,price" ++ [10%N]) in
  perform (WriteFile outPath csvContent);;
  when (verbose argv) (log (Info "CSV file written" []));;
  let pythonScript :=
    if includes outPath "PT_" || includes outPath "SPF_"
    then Some "sortProducts.py"%string
    else None in
  match pythonScript with
  | Some script =>
      when (verbose argv) (log (Info "Sorting CSV using" []));;
      perform (ExecPython script outPath)
  | None => when (verbose argv) (log (Info "No sorting required for this CSV." []))
  end.

(** One turn of the retry loop of [scrapeAllProducts]. *)
Definition retryAttempt (fuel : nat) (page : Page) (pageCount : nat)
    (st : RetryState) : M RetryState :=
  let attempts := S (attempts st) in
  cards <- perform (QueryCards page);;
  let productData := map extractFieldsFromCard cards in
  let invalidEntries := invalidEntries productData in
  if 0 <? List.length invalidEntries then
    when (verbose argv)
      (log (Info "ERROR: INVALID PRODUCT ENTRIES. Retrying..."
              [Z.of_nat (List.length invalidEntries); Z.of_nat pageCount;
               Z.of_nat attempts]));;
    delay 3000;;
    scrollAndWaitForStability fuel page 5 false;;
    ret {| validDataFound := validDataFound st; attempts := attempts;
           productData := productData |}
  else
    ret {| validDataFound := true; attempts := attempts;
           productData := productData |}.

(** The retry loop and the report that follows it; the value is
    [productData] as the loop leaves it. *)
Definition retryLoop (fuel : nat) (page : Page) (pageCount : nat)
    : M (list Product) :=
  st <- while fuel (fun st => negb (validDataFound st) && (attempts st <? 3))
          (retryAttempt fuel page pageCount)
          {| validDataFound := false; attempts := 0; productData := [] |};;
  when (negb (validDataFound st) && (3 <=? attempts st))
    (when (verbose argv)
       (log (Info "ERROR: INVALID PRODUCT ENTRIES. Proceeding..."
               [Z.of_nat pageCount])));;
  ret (productData st).

(** One turn of the [while (true)] of [scrapeAllProducts], on
    [allProducts] and [pageCount].  [allProducts.push(...productData)] is
    the append [++]; the RangeError the spread raises on a snapshot longer
    than a call takes arguments is left out. *)
Definition scrapePage (fuel : nat) (page : Page)
    (st : list Product * nat) : M (Step (list Product * nat) (list Product)) :=
  let allProducts := fst st in
  let pageCount := S (snd st) in
  when (verbose argv) (log (Info "--- Scraping page ---" [Z.of_nat pageCount]));;
  scrollAndWaitForStability fuel page 5 false;;
  perform (Screenshot page pageCount);;
  when (verbose argv) (log (Info "Saved screenshot" [Z.of_nat pageCount]));;
  when (verbose argv) (log (Info "Extracting product data..." []));;
  productData <- retryLoop fuel page pageCount;;
  let allProducts := allProducts ++ productData in
  when (verbose argv)
    (log (Info "Found product cards on this page. Total so far"
            [Z.of_nat (List.length productData);
             Z.of_nat (List.length allProducts)]));;
  if MAX_PAGES <=? pageCount then
    log (Info "Reached max pages, stopping pagination." [Z.of_nat MAX_PAGES]);;
    ret (Break allProducts)
  else
    when (verbose argv) (log (Info "Checking for 'Next' button..." []));;
    nextButton <- perform (QueryNext page);;
    match nextButton with
    | None =>
        when (verbose argv)
          (log (Info "No 'Next' button found. Last page likely reached." []));;
        ret (Break allProducts)
    | Some btn =>
        isDisabled <- perform (HasDisabled page btn);;
        if isDisabled : bool then
          when (verbose argv)
            (log (Info "'Next' button is disabled. Stopping pagination." []));;
          ret (Break allProducts)
        else
          when (verbose argv)
            (log (Info "Clicking 'Next' and waiting for new page content..." []));;
          perform (ClickAndWaitForNavigation page btn);;
          delay 3000;;
          ret (Continue (allProducts, pageCount))
    end.

Definition scrapeAllProducts (fuel : nat) (page : Page) (initialUrl : string)
    : M (list Product) :=
  log (Info "Navigating to initial URL" []);;
  perform (Goto page initialUrl (Some "networkidle2"%string));;
  when (verbose argv)
    (log (Info "Page loaded. Waiting 5 seconds for initial content..." []));;
  delay 5000;;
  allProducts <- loop fuel (scrapePage fuel page) ([], 0);;
  log (Info "Finished scraping. Total products scraped"
         [Z.of_nat (List.length allProducts)]);;
  ret allProducts.

(** [allProducts.forEach((p, i) => console.log(...))] *)
Fixpoint logProducts (i : nat) (allProducts : list Product) : M unit :=
  match allProducts with
  | [] => ret tt
  | p :: rest => log (ProductLine (S i) p);; logProducts (S i) rest
  end.

(** [c] with a throw turned into a value. *)
Definition attempt {A} (c : M A) : M (Error + A) :=
  fun w =>
    let r := c w in
    {| outcome := match outcome r with
                  | Ok a => Ok (inr a)
                  | Throw e => Ok (inl e)
                  | Diverge => Diverge
                  end;
       world := world r; trace := trace r |}.

(** [let x; try { x = acquire; body } catch (e) { handler } finally { fin }]
    where [fin] reads [x], which is undefined when [acquire] threw. *)
Definition tryWithLocal {R A} (acquire : M R) (body : R -> M A)
    (handler : Error -> M A) (fin : option R -> M unit) : M A :=
  r <- attempt acquire;;
  match r with
  | inr x => tryFinally (tryCatch (body x) handler) (fin (Some x))
  | inl e => tryFinally (handler e) (fin None)
  end.

(** The statements of the [try] block after the browser is connected.
    [allProducts.push(...products)] is the append [++], as in
    [scrapePage]. *)
Definition scrapeWithBrowser (fuel : nat) (browser : Browser) : M (list Product) :=
  when (verbose argv)
    (log (Info "Creating a new page to set store location..." []));;
  setupPage <- perform (NewPage browser);;
  perform (SetDefaultNavigationTimeout setupPage (6 * 60 * 1000));;
  when (verbose argv) (log (Info "Navigating to homepage..." []));;
  perform (Goto setupPage "https://www.homedepot.ca/" None);;
  delay 5000;;
  when (verbose argv) (log (Info "homepage loaded." []));;
  when (verbose argv) (log (Info "Selecting store location..." []));;
  changeStore setupPage "Collingwood";;
  when (verbose argv) (log (Info "Closing the setup page..." []));;
  perform (ClosePage setupPage);;
  when (verbose argv) (log (Info "Begin scraping URLs..." []));;
  when (verbose argv) (log (Info "----- Scraping URL -----" []));;
  scraperPage <- perform (NewPage browser);;
  perform (SetDefaultNavigationTimeout scraperPage (6 * 60 * 1000));;
  products <- scrapeAllProducts fuel scraperPage (url argv);;
  let allProducts := [] ++ products in
  when (verbose argv)
    (log (Info "Finished scraping. Total products so far"
            [Z.of_nat (List.length allProducts)]));;
  perform (ClosePage scraperPage);;
  log (Info "All scraping done! Listing scraped products..." []);;
  when (verbose argv)
    (log (Info "Listing scraped products..." []);; logProducts 0 allProducts);;
  log (Json allProducts);;
  writeToCSV allProducts (csvName argv);;
  log (Info "Scraped a total of products" [Z.of_nat (List.length allProducts)]);;
  ret allProducts.

(** The [finally] block. *)
Definition cleanup (browser : option Browser) : M unit :=
  match browser with
  | Some b =>
      log (Info "Closing the browser..." []);;
      perform (CloseBrowser b);;
      log (Info "Browser closed." [])
  | None => ret tt
  end;;
  exit 0.

(** The function the worker runs when it starts; its value is the
    completion of the function when [process.exit] is reached. *)
Definition main (fuel : nat) : M (list Product) :=
  when (verbose argv) (log (Info "Starting scraping" []));;
  tryWithLocal
    (connectToBrowser AUTH false)
    (scrapeWithBrowser fuel)
    (fun error =>
       log (ErrorMsg "An error occurred while scraping:" error);;
       ret [])
    cleanup.

End Worker.

(** ** Reading a trace *)

Definition isScreenshot (e : Event) : bool :=
  match e with
  | Did (Screenshot _ _) _ => true
  | _ => false
  end.

Definition isQueryCards (e : Event) : bool :=
  match e with
  | Did (QueryCards _) _ => true
  | _ => false
  end.

Definition isQueryNext (e : Event) : bool :=
  match e with
  | Did (QueryNext _) _ => true
  | _ => false
  end.

Definition isCloseBrowser (e : Event) : bool :=
  match e with
  | Did (CloseBrowser _) _ => true
  | _ => false
  end.

Definition isExit (e : Event) : bool :=
  match e with
  | Exited _ => true
  | _ => false
  end.

Definition isScroll (e : Event) : bool :=
  match e with
  | Did (EvalScrollBy _ _) _ => true
  | _ => false
  end.

Definition isCountCards (e : Event) : bool :=
  match e with
  | Did (CountCards _) _ => true
  | _ => false
  end.

(** How many events of a kind a trace holds. *)
Definition count (f : Event -> bool) (d : Trace) : nat :=
  List.length (filter f d).

(** The cards a [QueryCards] call was answered with. *)
Definition cardsOf (e : Event) : option (list Card) :=
  match e with
  | Did c r =>
      match c in Call T return Error + T -> option (list Card) with
      | QueryCards _ => fun r =>
          match r with
          | inr cards => Some cards
          | inl _ => None
          end
      | _ => fun _ => None
      end r
  | _ => None
  end.

(** The answer to the last [QueryCards] of a trace. *)
Fixpoint lastCards (d : Trace) : option (list Card) :=
  match d with
  | [] => None
  | e :: d' =>
      match lastCards d' with
      | Some cards => Some cards
      | None => cardsOf e
      end
  end.

(** A trace cut at its screenshots: what precedes the first one, and what
    follows each.  The worker takes one screenshot per page, before it
    extracts, so each piece after a screenshot is the extraction of one page. *)
Fixpoint cutAtScreenshots (d : Trace) : Trace * list Trace :=
  match d with
  | [] => ([], [])
  | e :: d' =>
      let (pre, pieces) := cutAtScreenshots d' in
      if isScreenshot e then ([], pre :: pieces) else (e :: pre, pieces)
  end.

Definition cardsOrNone (o : option (list Card)) : list Card :=
  match o with
  | Some cards => cards
  | None => []
  end.

(** The cards of each page in the order the pages were reached: for each
    page the answer to its last extraction. *)
Definition pageSnapshots (d : Trace) : list (list Card) :=
  map (fun piece => cardsOrNone (lastCards piece)) (snd (cutAtScreenshots d)).

(** The number the worker printed as the final stable count, if it did. *)
Definition finalStableCount (e : Event) : option Z :=
  match e with
  | Logged (Info text [n]) =>
      if String.eqb text "Final stable product card count" then Some n else None
  | _ => None
  end.

Fixpoint loggedFinalCount (d : Trace) : option Z :=
  match d with
  | [] => None
  | e :: d' =>
      match loggedFinalCount d' with
      | Some n => Some n
      | None => finalStableCount e
      end
  end.

(** What a turn of the page loop leaves in [allProducts]. *)
Definition accumulated (r : Step (list Product * nat) (list Product))
    : list Product :=
  match r with
  | Continue s => fst s
  | Break a => a
  end.

(** ** Statements about every run of a computation *)

Section Statements.
Context {E : Env}.

(** [r] with the events [d] put before its own. *)
Definition after {A} (d : Trace) (r : Run A) : Run A :=
  {| outcome := outcome r; world := world r; trace := d ++ trace r |}.

(** Whatever the world answers, [c] leaves only events that satisfy [p]. *)
Definition only (p : Event -> bool) {A} (c : M A) : Prop :=
  forall w, Forall (fun e => p e = true) (trace (c w)).

(** The events that are neither a screenshot nor an extraction nor a look
    at the "next" control. *)
Definition isPlain (e : Event) : bool :=
  negb (isScreenshot e) && negb (isQueryCards e) && negb (isQueryNext e).

Definition notScreenshot (e : Event) : bool := negb (isScreenshot e).

Definition notQueryNext (e : Event) : bool := negb (isQueryNext e).

(** The events of the decision that ends a page: no screenshot, no
    extraction. *)
Definition inDeciding (e : Event) : bool :=
  negb (isScreenshot e) && negb (isQueryCards e).

(** The events of the [try] block: the browser is not closed and the
    process does not exit. *)
Definition notCleanup (e : Event) : bool :=
  negb (isCloseBrowser e) && negb (isExit e).

(** The variables of the stability loop after a reading of [currentCount]. *)
Definition nextState (st : StabilityState) (currentCount : Z) : StabilityState :=
  if (currentCount =? lastCount st)%Z
  then {| stableCountRepeats := S (stableCountRepeats st);
          lastCount := lastCount st |}
  else {| stableCountRepeats := 0; lastCount := currentCount |}.

(** Every reading differs from the one before it, the first one from
    [previous]. *)
Fixpoint changing (previous : Z) (readings : list Z) : Prop :=
  match readings with
  | [] => True
  | x :: rest => x <> previous /\ changing x rest
  end.

(** Whenever [c] returns, what it returns satisfies [Q]. *)
Definition returns {A} (Q : A -> Prop) (c : M A) : Prop :=
  forall w a, outcome (c w) = Ok a -> Q a.

End Statements.

(** ** Simulated worlds *)

(** An answer that says nothing, for the calls a simulation does not script. *)
Definition blank (T : Type) (c : Call T) : T :=
  match c in Call T return T with
  | Connect _ => 0
  | NewPage _ => 0
  | SetDefaultNavigationTimeout _ _ => tt
  | Goto _ _ _ => tt
  | WaitForSelector _ _ => tt
  | Click _ _ => tt
  | TypeText _ _ _ => tt
  | KeyboardPress _ _ => tt
  | ClosePage _ => tt
  | EvalScrollHeight _ => 0%Z
  | EvalScrollBy _ _ => tt
  | CountCards _ => 0%Z
  | QueryCards _ => []
  | Screenshot _ _ => tt
  | QueryNext _ => None
  | HasDisabled _ _ => false
  | ClickAndWaitForNavigation _ _ => tt
  | WriteFile _ _ => tt
  | ExecPython _ _ => tt
  | CloseBrowser _ => tt
  end.

(** A page whose successive height measurements are [heights 0],
    [heights 1], ... and whose successive card counts are [counts 0],
    [counts 1], ...; the world is the number of measurements of each kind
    made so far. *)
Definition streamEnv (heights counts : nat -> Z) : Env :=
  {| World := nat * nat;
     answer := fun T (c : Call T) (w : nat * nat) =>
       match c in Call T return (Error + T) * (nat * nat) with
       | EvalScrollHeight _ => (inr (heights (fst w)), (S (fst w), snd w))
       | CountCards _ => (inr (counts (snd w)), (fst w, S (snd w)))
       | c' => (inr (blank c'), w)
       end;
     elapse := fun _ w => w |}.

(** A page whose height never changes and whose card counts are read from a
    script; the world is what is left of the script, and a count asked for
    after its end throws. *)
Definition scriptEnv : Env :=
  {| World := list Z;
     answer := fun T (c : Call T) (w : list Z) =>
       match c in Call T return (Error + T) * list Z with
       | CountCards _ =>
           match w with
           | n :: rest => (inr n, rest)
           | [] => (inl "no reading left"%string, [])
           end
       | c' => (inr (blank c'), w)
       end;
     elapse := fun _ w => w |}.

Inductive NextControl := NextAbsent | NextDisabled | NextEnabled.

(** A page of a simulated site: what its cards are at each successive
    extraction (the last rendering stays), and its "next" control. *)
Record SitePage := { renderings : list (list Card); nextControl : NextControl }.

(** A simulated site: whether the browser can be reached, and the pages from
    the current one on. *)
Record Site := { reachable : bool; pages : list SitePage }.

Definition currentCards (s : Site) : list Card :=
  match pages s with
  | p :: _ => hd [] (renderings p)
  | [] => []
  end.

Definition afterExtraction (s : Site) : Site :=
  match pages s with
  | {| renderings := _ :: (r :: rs); nextControl := n |} :: rest =>
      {| reachable := reachable s;
         pages := {| renderings := r :: rs; nextControl := n |} :: rest |}
  | _ => s
  end.

Definition currentNext (s : Site) : NextControl :=
  match pages s with
  | p :: _ => nextControl p
  | [] => NextAbsent
  end.

Definition siteEnv : Env :=
  {| World := Site;
     answer := fun T (c : Call T) (s : Site) =>
       match c in Call T return (Error + T) * Site with
       | Connect _ =>
           (if reachable s then inr 0 else inl "connection refused"%string, s)
       | CountCards _ => (inr (Z.of_nat (List.length (currentCards s))), s)
       | QueryCards _ => (inr (currentCards s), afterExtraction s)
       | QueryNext _ =>
           (inr match currentNext s with
                | NextAbsent => None
                | _ => Some 0
                end, s)
       | HasDisabled _ _ =>
           (inr match currentNext s with
                | NextDisabled => true
                | _ => false
                end, s)
       | ClickAndWaitForNavigation _ _ =>
           (inr tt, {| reachable := reachable s; pages := tl (pages s) |})
       | c' => (inr (blank c'), s)
       end;
     elapse := fun _ s => s |}.

Definition sampleArgv : Argv :=
  {| workerId := "1"; url := "https://www.homedepot.ca/plywood.html";
     csvName := "CSVs/Unsorted/PLY_2025-01-01.csv"; verbose := false |}.

Definition goodCard : Card :=
  cardOf (Some "2x4 Stud"%string) (Some "$3"%string) (Some "98"%string).
Definition unpricedCard : Card := cardOf (Some "Plywood sheet"%string) None None.

Definition numberedCard (n : nat) : Card :=
  let digits := NilEmpty.string_of_uint (Nat.to_uint n) in
  cardOf (Some (String.append "Item " digits)) (Some digits) (Some "99"%string).

Definition cardsFrom (first howMany : nat) : list Card :=
  map numberedCard (seq first howMany).

(** Two pages, of 24 and of 10 cards; only the first has a "next" control. *)
Definition twoPageSite : Site :=
  {| reachable := true;
     pages :=
       [ {| renderings := [cardsFrom 1 24]; nextControl := NextEnabled |};
         {| renderings := [cardsFrom 25 10]; nextControl := NextAbsent |} ] |}.

(** [n] pages of one card each, every one with an enabled "next" control. *)
Definition longSite (n : nat) : Site :=
  {| reachable := true;
     pages := map (fun i => {| renderings := [[numberedCard i]];
                               nextControl := NextEnabled |}) (seq 1 n) |}.

(** One page on which a card never gets its price. *)
Definition brokenSite : Site :=
  {| reachable := true;
     pages := [ {| renderings := [[goodCard; unpricedCard]];
                   nextControl := NextAbsent |} ] |}.

(** One page whose price arrives for the second extraction. *)
Definition lateSite : Site :=
  {| reachable := true;
     pages := [ {| renderings := [[unpricedCard]; [goodCard]];
                   nextControl := NextAbsent |} ] |}.

(** One page without any card. *)
Definition emptySite : Site :=
  {| reachable := true;
     pages := [ {| renderings := [[]]; nextControl := NextAbsent |} ] |}.

Definition unreachableSite : Site := {| reachable := false; pages := [] |}.


(** ** The retry loop, turn by turn *)

Section Turns.
Context {E : Env}.
Variable argv : Argv.



End Turns.

(** ** More readings of a trace, and more statements *)

(** How many commas a string holds. *)
Definition commas (s : jsstring) : nat := count_occ N.eq_dec s 44%N.

(** How many line feeds a string holds. *)
Definition lineFeeds (s : jsstring) : nat := count_occ N.eq_dec s 10%N.

Definition allWhiteSpace (s : jsstring) : Prop :=
  Forall (fun c => isWhiteSpace c = true) s.

(** [s] neither starts nor ends with white space. *)
Definition trimmed (s : jsstring) : Prop :=
  s = []
  \/ (exists c rest, s = c :: rest /\ isWhiteSpace c = false)
     /\ (exists front c, s = front ++ [c] /\ isWhiteSpace c = false).

(** The height an [EvalScrollHeight] call was answered with. *)
Definition heightOf (e : Event) : option Z :=
  match e with
  | Did c r =>
      match c in Call T return Error + T -> option Z with
      | EvalScrollHeight _ => fun r =>
          match r with
          | inr h => Some h
          | inl _ => None
          end
      | _ => fun _ => None
      end r
  | _ => None
  end.

(** The count a [CountCards] call was answered with. *)
Definition countOf (e : Event) : option Z :=
  match e with
  | Did c r =>
      match c in Call T return Error + T -> option Z with
      | CountCards _ => fun r =>
          match r with
          | inr n => Some n
          | inl _ => None
          end
      | _ => fun _ => None
      end r
  | _ => None
  end.

(** The values [f] reads off the events of a trace, in order. *)
Fixpoint readings (V : Type) (f : Event -> option V) (d : Trace) : list V :=
  match d with
  | [] => []
  | e :: d' =>
      match f e with
      | Some z => z :: readings f d'
      | None => readings f d'
      end
  end.

Definition notCountCards (e : Event) : bool := negb (isCountCards e).

(** What the stability detector does to the page: it scrolls, measures the
    height, counts the cards, waits and prints. *)
Definition isDetectorEvent (e : Event) : bool :=
  match e with
  | Did (EvalScrollBy _ _) _ => true
  | Did (EvalScrollHeight _) _ => true
  | Did (CountCards _) _ => true
  | Slept _ => true
  | Logged _ => true
  | _ => false
  end.

Definition isLog (e : Event) : bool :=
  match e with
  | Logged _ => true
  | _ => false
  end.

(** A trace without what was printed. *)
Definition unlogged (d : Trace) : Trace := filter (fun e => negb (isLog e)) d.

(** The page number a screenshot was taken for. *)
Definition shotOf (e : Event) : option nat :=
  match e with
  | Did (Screenshot _ pageCount) _ => Some pageCount
  | _ => None
  end.

(** The text of a CSV file of the given records. *)
Definition csvText (data : list Product) : jsstring :=
  str "product_name,price" ++ [10%N] ++ List.concat (map csvRow data).

(** A world in which the calls chosen by [fails] throw and the others
    give the blank answer. *)
Definition failingEnv (fails : forall T, Call T -> bool) : Env :=
  {| World := unit;
     answer := fun T (c : Call T) (w : unit) =>
       (if fails T c then inl "failed"%string else inr (blank c), w);
     elapse := fun _ w => w |}.

Definition isGoto (T : Type) (c : Call T) : bool :=
  match c with
  | Goto _ _ _ => true
  | _ => false
  end.

(** Two computations that differ at most in what they print. *)
Definition sameButLogs {E : Env} {A} (c1 c2 : M A) : Prop :=
  forall w,
    outcome (c1 w) = outcome (c2 w)
    /\ world (c1 w) = world (c2 w)
    /\ unlogged (trace (c1 w)) = unlogged (trace (c2 w)).

(** A computation that only prints. *)
Definition printsOnly {E : Env} (c : M unit) : Prop :=
  forall w,
    outcome (c w) = Ok tt /\ world (c w) = w /\ unlogged (trace (c w)) = [].

(** Neither the JSON of the result nor the writing of the CSV file. *)
Definition notReport (e : Event) : bool :=
  match e with
  | Logged (Json _) => false
  | Did (WriteFile _ _) _ => false
  | _ => true
  end.

(** A computation whose trace, when it returns, ends in a part that
    satisfies [Q] and has no report before that part. *)
Definition reports {E : Env} {A} (Q : A -> Trace -> Prop) (c : M A) : Prop :=
  forall w a,
    outcome (c w) = Ok a ->
    exists d1 d2,
      trace (c w) = d1 ++ d2
      /\ Forall (fun e => notReport e = true) d1
      /\ Q a d2.

(** The click on the "next" control together with the wait for the new page. *)
Definition isNavigation (e : Event) : bool :=
  match e with
  | Did (ClickAndWaitForNavigation _ _) _ => true
  | _ => false
  end.

(** What surrounds the page loop in [scrapeAllProducts]: what is printed,
    the waits, and the navigation to the initial URL. *)
Definition isFraming (e : Event) : bool :=
  match e with
  | Logged _ => true
  | Slept _ => true
  | Did (Goto _ _ _) _ => true
  | _ => false
  end.

(** ** cli.js and the arguments of the worker *)

Module Cli.

(** [new Date()] as cli.js reads it: [getFullYear()], [getMonth()] (from 0)
    and [getDate()]. *)
Record Today := { fullYear : nat; month : nat; date : nat }.

(** [String(n)] and [`${n}`] for a natural number. *)
Definition stringOfNat (n : nat) : string :=
  NilEmpty.string_of_uint (Nat.to_uint n).

(** [s.padStart(2, '0')] *)
Definition padStart2 (s : string) : string :=
  match String.length s with
  | 0 => "00"
  | 1 => String.append "0" s
  | _ => s
  end.

Definition formattedDate (today : Today) : string :=
  String.append (stringOfNat (fullYear today))
    (String.append "-"
       (String.append (padStart2 (stringOfNat (month today + 1)))
          (String.append "-" (padStart2 (stringOfNat (date today)))))).

Record Target := { id : nat; url : string; csv : string }.

Definition urls (today : Today) : list Target :=
  [ {| id := 1;
       url := "https://www.homedepot.ca/en/home/categories/building-materials/lumber-and-composites/dimensional-lumber-and-studs.html";
       csv := String.append "CSVs/Unsorted/SPF_"
                (String.append (formattedDate today) ".csv") |};
    {| id := 2;
       url := "https://www.homedepot.ca/en/home/categories/building-materials/lumber-and-composites/pressure-treated-lumber.html";
       csv := String.append "CSVs/Unsorted/PT_"
                (String.append (formattedDate today) ".csv") |};
    {| id := 3;
       url := "https://www.homedepot.ca/en/home/categories/building-materials/lumber-and-composites/plywood.html";
       csv := String.append "CSVs/Unsorted/PLY_"
                (String.append (formattedDate today) ".csv") |} ].

(** [verbose.toString()], the last argument [runWorker] gives the worker. *)
Definition verboseArg (verbose : bool) : string :=
  if verbose then "true" else "false".

End Cli.

(** [process.argv[5] === "true"] in the worker; the argument is [None] when
    the worker was started with fewer arguments. *)
Definition readVerbose (arg : option string) : bool :=
  match arg with
  | Some s => String.eqb s "true"
  | None => false
  end.

(** [s] holds no character [c]. *)
Fixpoint lacks (c : ascii) (s : string) : bool :=
  match s with
  | EmptyString => true
  | String c' s' => negb (Ascii.eqb c c') && lacks c s'
  end.

(** * Properties *)

(** ** The record extractor *)

Lemma replaceRuns_strips (inRun : bool) (s : jsstring) :
  replaceRuns [] inRun s = filter isDigit s.
Proof.
  revert inRun; induction s as [|c r IH]; intros inRun; simpl; [reflexivity|].
  destruct (isDigit c).
  - now rewrite IH.
  - destruct inRun; simpl; apply IH.
Qed.

Lemma digit_not_space (c : N) : isDigit c = true -> isWhiteSpace c = false.
Proof.
  unfold isDigit, isWhiteSpace; intros H.
  apply andb_true_iff in H; destruct H as [H1 H2].
  apply N.leb_le in H1; apply N.leb_le in H2.
  repeat match goal with
         | |- context [(?a <=? ?b)%N] =>
             destruct (N.leb_spec a b); try lia
         | |- context [(?a =? ?b)%N] =>
             destruct (N.eqb_spec a b); try lia
         end; reflexivity.
Qed.

Lemma trimEnd_last (s : jsstring) (c : N) :
  isWhiteSpace c = false -> trimEnd (s ++ [c]) = s ++ [c].
Proof.
  intros H; unfold trimEnd.
  rewrite rev_app_distr; simpl; rewrite H; simpl.
  now rewrite rev_involutive.
Qed.

Lemma orElse_digits (s d : jsstring) :
  d <> [] -> Forall (fun c => isDigit c = true) d ->
  orElse (filter isDigit s) d <> [] /\
  Forall (fun c => isDigit c = true) (orElse (filter isDigit s) d).
Proof.
  intros Hd Hall; destruct (filter isDigit s) as [|c r] eqn:Hf; simpl.
  - now split.
  - split; [discriminate|].
    rewrite <- Hf; apply Forall_forall; intros x Hx.
    now apply filter_In in Hx.
Qed.

Lemma trim_composed (dollars cents : jsstring) :
  cents <> [] -> Forall (fun c => isDigit c = true) cents ->
  trim (str "$" ++ dollars ++ str "." ++ cents)
  = str "$" ++ dollars ++ str "." ++ cents.
Proof.
  intros Hne Hall.
  destruct (exists_last Hne) as [front [c Hc]]; subst cents.
  apply Forall_app in Hall; destruct Hall as [_ Hc].
  inversion Hc as [|x l Hd _]; subst.
  unfold trim.
  replace (trimStart (str "$" ++ dollars ++ str "." ++ front ++ [c]))
    with ((str "$" ++ dollars ++ str "." ++ front) ++ [c])
    by (rewrite <- !app_assoc; reflexivity).
  rewrite trimEnd_last by (apply digit_not_space, Hd).
  now rewrite <- !app_assoc.
Qed.

Lemma price_composed (card : Card) :
  price (extractFieldsFromCard card)
  = str "$"
    ++ orElse (filter isDigit (getText card ".acl-product-card__price-dollars"))
         (str "0")
    ++ str "."
    ++ orElse (filter isDigit (getText card ".acl-product-card__price-cents"))
         (str "00").
Proof.
  unfold extractFieldsFromCard, replaceNonDigits; simpl price.
  rewrite !replaceRuns_strips.
  apply trim_composed; apply orElse_digits; try discriminate;
    repeat constructor.
Qed.

(** C6. The price of the record extracted from a card is "$", the digits of
    the dollars text ("0" when it has none), ".", the digits of the cents
    text ("00" when it has none), every other character being dropped; the
    texts "$1,234" and "56" give "$1234.56", and a card without a cents
    element gives "$<dollars>.00". *)
Theorem extractFieldsFromCard_price :
  (forall card,
     price (extractFieldsFromCard card)
     = str "$"
       ++ orElse (filter isDigit (getText card ".acl-product-card__price-dollars"))
            (str "0")
       ++ str "."
       ++ orElse (filter isDigit (getText card ".acl-product-card__price-cents"))
            (str "00"))
  /\ (forall s, Forall (fun c => isDigit c = true) (filter isDigit s))
  /\ (forall title,
        price (extractFieldsFromCard
                 (cardOf title (Some "$1,234"%string) (Some "56"%string)))
        = str "$1234.56")
  /\ (forall card,
        querySelector card ".acl-product-card__price-cents" = None ->
        price (extractFieldsFromCard card)
        = str "$"
          ++ orElse (filter isDigit
                       (getText card ".acl-product-card__price-dollars"))
               (str "0")
          ++ str ".00").
Proof.
  split; [exact price_composed|].
  split.
  { intros s; apply Forall_forall; intros x Hx; now apply filter_In in Hx. }
  split; [intros title; reflexivity|].
  intros card Hnone; rewrite price_composed.
  unfold getText at 2; rewrite Hnone; reflexivity.
Qed.

(** ** The validation governor *)

Lemma jsstring_eqb_eq (a b : jsstring) : jsstring_eqb a b = true <-> a = b.
Proof.
  unfold jsstring_eqb; destruct (list_eq_dec N.eq_dec a b); split;
    congruence.
Qed.

Lemma isInvalidEntry_iff (p : Product) :
  isInvalidEntry p = true <-> productName p = [] \/ price p = str "$0.00".
Proof.
  unfold isInvalidEntry; rewrite orb_true_iff, jsstring_eqb_eq.
  destruct (productName p); simpl; intuition congruence.
Qed.

Lemma hasInvalidEntries_exists (productData : list Product) :
  hasInvalidEntries productData = true
  <-> exists p, In p productData /\ isInvalidEntry p = true.
Proof.
  unfold hasInvalidEntries, invalidEntries; rewrite Nat.ltb_lt; split.
  - intros H; destruct (filter isInvalidEntry productData) as [|p r] eqn:Hf;
      [simpl in H; lia|].
    exists p; apply filter_In; rewrite Hf; now left.
  - intros [p Hp]; apply filter_In in Hp.
    destruct (filter isInvalidEntry productData); [contradiction|simpl; lia].
Qed.

(** ** Running the monad *)

Section Running.
Context {E : Env}.

Lemma bind_trace A B (c : M A) (f : A -> M B) (w : World) :
  trace (bind c f w)
  = trace (c w) ++ match outcome (c w) with
                   | Ok a => trace (f a (world (c w)))
                   | _ => []
                   end.
Proof.
  unfold bind; destruct (c w) as [[a|e|] w1 d1]; simpl;
    now rewrite ?app_nil_r.
Qed.

Lemma bind_outcome A B (c : M A) (f : A -> M B) (w : World) :
  outcome (bind c f w)
  = match outcome (c w) with
    | Ok a => outcome (f a (world (c w)))
    | Throw e => Throw e
    | Diverge => Diverge
    end.
Proof. unfold bind; destruct (c w) as [[a|e|] w1 d1]; reflexivity. Qed.

Lemma bind_Ok A B (c : M A) (f : A -> M B) (w w1 : World) a d1 :
  c w = {| outcome := Ok a; world := w1; trace := d1 |} ->
  bind c f w = after d1 (f a w1).
Proof. intros H; unfold bind; rewrite H; reflexivity. Qed.

Lemma bind_Throw A B (c : M A) (f : A -> M B) (w w1 : World) e d1 :
  c w = {| outcome := Throw e; world := w1; trace := d1 |} ->
  bind c f w = {| outcome := Throw e; world := w1; trace := d1 |}.
Proof. intros H; unfold bind; rewrite H; reflexivity. Qed.

Lemma bind_Diverge A B (c : M A) (f : A -> M B) (w w1 : World) d1 :
  c w = {| outcome := Diverge; world := w1; trace := d1 |} ->
  bind c f w = {| outcome := Diverge; world := w1; trace := d1 |}.
Proof. intros H; unfold bind; rewrite H; reflexivity. Qed.

Lemma bind_ok_inv A B (c : M A) (f : A -> M B) (w : World) b :
  outcome (bind c f w) = Ok b ->
  exists a, outcome (c w) = Ok a
            /\ outcome (f a (world (c w))) = Ok b
            /\ trace (bind c f w) = trace (c w) ++ trace (f a (world (c w)))
            /\ world (bind c f w) = world (f a (world (c w))).
Proof.
  unfold bind; destruct (c w) as [[a|e|] w1 d1]; simpl; try discriminate.
  intros H; exists a; auto.
Qed.

Lemma after_after A (d1 d2 : Trace) (r : Run A) :
  after d1 (after d2 r) = after (d1 ++ d2) r.
Proof. unfold after; simpl; now rewrite app_assoc. Qed.

Lemma after_nil A (r : Run A) : after [] r = r.
Proof. now destruct r. Qed.

(** *** Computations that leave only events of a kind *)

Lemma only_ret p A (a : A) : only p (ret a).
Proof. intros w; constructor. Qed.

Lemma only_bind p A B (c : M A) (f : A -> M B) :
  only p c -> (forall a, only p (f a)) -> only p (bind c f).
Proof.
  intros Hc Hf w; rewrite bind_trace; apply Forall_app; split; [apply Hc|].
  destruct (outcome (c w)); [apply Hf|constructor|constructor].
Qed.

Lemma only_perform p T (c : Call T) :
  (forall r, p (Did c r) = true) -> only p (perform c).
Proof.
  intros H w; unfold perform; destruct (answer c w) as [r w'].
  simpl; repeat constructor; apply H.
Qed.

Lemma only_delay p ms : p (Slept ms) = true -> only p (delay ms).
Proof. intros H w; repeat constructor; exact H. Qed.

Lemma only_log p m : p (Logged m) = true -> only p (log m).
Proof. intros H w; repeat constructor; exact H. Qed.

Lemma only_when p b (c : M unit) : only p c -> only p (when b c).
Proof. intros H; destruct b; [exact H|apply only_ret]. Qed.

Lemma only_diverge p A : only p (@diverge _ A).
Proof. intros w; constructor. Qed.

Lemma only_while p S fuel cond (body : S -> M S) :
  (forall s, only p (body s)) -> forall s, only p (while fuel cond body s).
Proof.
  intros Hb; induction fuel as [|fuel IH]; intros s; simpl.
  - apply only_diverge.
  - destruct (cond s); [apply only_bind; auto|apply only_ret].
Qed.

Lemma only_loop p S A fuel (body : S -> M (Step S A)) :
  (forall s, only p (body s)) -> forall s, only p (loop fuel body s).
Proof.
  intros Hb; induction fuel as [|fuel IH]; intros s; simpl.
  - apply only_diverge.
  - apply only_bind; [apply Hb|].
    intros [s'|a]; [apply IH|apply only_ret].
Qed.

Lemma only_if p A (b : bool) (c1 c2 : M A) :
  only p c1 -> only p c2 -> only p (if b then c1 else c2).
Proof. now destruct b. Qed.

Lemma only_weaken (p q : Event -> bool) A (c : M A) :
  (forall e, p e = true -> q e = true) -> only p c -> only q c.
Proof.
  intros Hpq Hc w; eapply Forall_impl; [|apply Hc]; exact Hpq.
Qed.

(** *** What a computation returns *)

Lemma returns_ret A (Q : A -> Prop) a : Q a -> returns Q (ret a).
Proof. intros H w b Hb; simpl in Hb; now inversion Hb; subst. Qed.

Lemma returns_bind A B (Q : B -> Prop) (c : M A) (f : A -> M B) :
  (forall a, returns Q (f a)) -> returns Q (bind c f).
Proof.
  intros H w b Hb; apply bind_ok_inv in Hb; destruct Hb as [a [_ [Hb _]]].
  eapply H; eassumption.
Qed.

(** *** The steps that cannot fail *)

Lemma perform_run T (c : Call T) w :
  perform c w
  = {| outcome := match fst (answer c w) with
                  | inl e => Throw e
                  | inr v => Ok v
                  end;
       world := snd (answer c w);
       trace := [Did c (fst (answer c w))] |}.
Proof. unfold perform; now destruct (answer c w). Qed.

Lemma bind_perform T A (c : Call T) (f : T -> M A) w :
  bind (perform c) f w
  = match fst (answer c w) with
    | inr v => after [Did c (inr v)] (f v (snd (answer c w)))
    | inl e => {| outcome := Throw e; world := snd (answer c w);
                  trace := [Did c (inl e)] |}
    end.
Proof.
  unfold bind; rewrite perform_run; cbn [outcome world trace].
  now destruct (fst (answer c w)).
Qed.

Lemma when_log_run b m w :
  when b (log m) w
  = {| outcome := Ok tt; world := w;
       trace := if b then [Logged m] else [] |}.
Proof. now destruct b. Qed.

Lemma bind_when_log A b m (f : unit -> M A) w :
  bind (when b (log m)) f w = after (if b then [Logged m] else []) (f tt w).
Proof. apply bind_Ok, when_log_run. Qed.

Lemma bind_log A m (f : unit -> M A) w :
  bind (log m) f w = after [Logged m] (f tt w).
Proof. reflexivity. Qed.

Lemma bind_delay A ms (f : unit -> M A) w :
  bind (delay ms) f w = after [Slept ms] (f tt (elapse ms w)).
Proof. reflexivity. Qed.

Lemma bind_ret A B (a : A) (f : A -> M B) w : bind (ret a) f w = f a w.
Proof. unfold bind; simpl; now destruct (f a w). Qed.

Lemma bind_cong_ok A B (c : M A) (f g : A -> M B) w :
  (forall a, outcome (c w) = Ok a -> f a (world (c w)) = g a (world (c w))) ->
  bind c f w = bind c g w.
Proof.
  intros H; unfold bind; destruct (c w) as [[a| |] w1 d1]; simpl in *;
    [now rewrite (H a eq_refl)|reflexivity|reflexivity].
Qed.

Lemma bind_assoc A B C (c : M A) (f : A -> M B) (g : B -> M C) w :
  bind (bind c f) g w = bind c (fun a => bind (f a) g) w.
Proof.
  unfold bind; destruct (c w) as [[a| |] w1 d1]; cbn [outcome world trace];
    try reflexivity.
  destruct (f a w1) as [[b| |] w2 d2]; cbn [outcome world trace];
    try reflexivity.
  now rewrite app_assoc.
Qed.

Lemma bind_cong A B (c : M A) (f g : A -> M B) w :
  (forall a w', f a w' = g a w') -> bind c f w = bind c g w.
Proof. intros H; apply bind_cong_ok; intros a _; apply H. Qed.

(** *** Loops *)

Lemma while_ends S (I : S -> Trace -> Prop) (cond : S -> bool)
    (body : S -> M S) :
  (forall s d w s', I s d -> cond s = true -> outcome (body s w) = Ok s' ->
                    I s' (d ++ trace (body s w))) ->
  forall fuel s d w s',
    I s d -> outcome (while fuel cond body s w) = Ok s' ->
    I s' (d ++ trace (while fuel cond body s w)) /\ cond s' = false.
Proof.
  intros Hbody; induction fuel as [|fuel IH]; intros s d w s' HI Hok.
  - discriminate.
  - simpl in *; destruct (cond s) eqn:Hc.
    + apply bind_ok_inv in Hok; destruct Hok as [s1 [H1 [H2 [H3 _]]]].
      rewrite H3, app_assoc; eapply IH; [|exact H2].
      eapply Hbody; eassumption.
    + inversion Hok; subst; simpl; rewrite app_nil_r; auto.
Qed.

End Running.

Create HintDb only discriminated.
#[export] Hint Resolve only_ret only_bind only_delay only_log only_when
  only_while only_loop only_if only_diverge : only.
#[export] Hint Extern 1 (only _ (perform _)) =>
  apply only_perform; intros; reflexivity : only.
#[export] Hint Extern 1 (_ = true) => reflexivity : only.

Arguments bind_Ok {E A B c} f {w w1 a d1} _.
Arguments bind_Throw {E A B c} f {w w1 e d1} _.
Arguments bind_Diverge {E A B c} f {w w1 d1} _.

#[export] Hint Extern 2 (only _ (match ?x with _ => _ end)) =>
  destruct x : only.

Ltac by_only :=
  match goal with
  | |- Forall (fun e => ?p e = true) (trace (?c ?w)) =>
      refine ((_ : only p c) w); auto 30 with only
  end.

Ltac returns_step :=
  first
    [ apply returns_bind; intros ?
    | apply returns_ret
    | match goal with
      | |- returns _ (if ?b then _ else _) => destruct b eqn:?
      | |- returns _ (match ?x with _ => _ end) => destruct x eqn:?
      end ].

Ltac by_returns :=
  match goal with
  | |- forall a, outcome (?c ?w) = Ok a -> @?Q a =>
      refine ((_ : returns Q c) w); repeat returns_step; cbv beta
  end.

(** ** Reading traces *)

Lemma count_app f d1 d2 : count f (d1 ++ d2) = count f d1 + count f d2.
Proof. unfold count; now rewrite filter_app, length_app. Qed.

Lemma count_none (f p : Event -> bool) d :
  (forall e, p e = true -> f e = false) ->
  Forall (fun e => p e = true) d -> count f d = 0.
Proof.
  intros Hpf Hd; induction Hd as [|e d He _ IH]; [reflexivity|].
  unfold count in *; simpl; now rewrite (Hpf e He).
Qed.

Lemma lastCards_app d1 d2 :
  lastCards (d1 ++ d2)
  = match lastCards d2 with
    | Some cards => Some cards
    | None => lastCards d1
    end.
Proof.
  induction d1 as [|e d1 IH]; simpl.
  - now destruct (lastCards d2).
  - rewrite IH; now destruct (lastCards d2).
Qed.

Lemma plain_not_query e : isPlain e = true -> isQueryCards e = false.
Proof.
  unfold isPlain; intros H; apply andb_true_iff in H; destruct H as [H _].
  apply andb_true_iff in H; destruct H as [_ H]; now apply negb_true_iff in H.
Qed.

Lemma plain_not_screenshot e : isPlain e = true -> isScreenshot e = false.
Proof.
  unfold isPlain; intros H; apply andb_true_iff in H; destruct H as [H _].
  apply andb_true_iff in H; destruct H as [H _]; now apply negb_true_iff in H.
Qed.

Lemma plain_not_next e : isPlain e = true -> isQueryNext e = false.
Proof.
  unfold isPlain; intros H; apply andb_true_iff in H; destruct H as [_ H].
  now apply negb_true_iff in H.
Qed.

Lemma plain_notScreenshot e : isPlain e = true -> notScreenshot e = true.
Proof.
  intros H; unfold notScreenshot; now rewrite (plain_not_screenshot _ H).
Qed.

Lemma plain_notQueryNext e : isPlain e = true -> notQueryNext e = true.
Proof. intros H; unfold notQueryNext; now rewrite (plain_not_next _ H). Qed.

Lemma notScreenshot_false e : notScreenshot e = true -> isScreenshot e = false.
Proof. unfold notScreenshot; intros H; now apply negb_true_iff in H. Qed.

Lemma notQueryNext_false e : notQueryNext e = true -> isQueryNext e = false.
Proof. unfold notQueryNext; intros H; now apply negb_true_iff in H. Qed.

Lemma inDeciding_not_query e : inDeciding e = true -> isQueryCards e = false.
Proof.
  unfold inDeciding; intros H; apply andb_true_iff in H.
  destruct H as [_ H]; now apply negb_true_iff in H.
Qed.

Lemma not_query_cardsOf e : isQueryCards e = false -> cardsOf e = None.
Proof. destruct e as [T c r| | |]; try reflexivity; now destruct c. Qed.

Lemma lastCards_none d :
  Forall (fun e => isQueryCards e = false) d -> lastCards d = None.
Proof.
  induction 1 as [|e d He _ IH]; simpl; [reflexivity|].
  now rewrite IH, not_query_cardsOf.
Qed.

Lemma lastCards_plain d :
  Forall (fun e => isPlain e = true) d -> lastCards d = None.
Proof.
  intros H; apply lastCards_none; eapply Forall_impl; [|exact H].
  exact plain_not_query.
Qed.

(** ** The stability detector leaves plain events only *)

Section Quiet.
Context {E : Env}.

Lemma scrollUntilNoChange_plain fuel page scrollStep scrollDelay :
  only isPlain (scrollUntilNoChange fuel page scrollStep scrollDelay).
Proof.
  unfold scrollUntilNoChange, scrollOnce; auto 20 with only.
Qed.

Lemma scrollAndWaitForStability_plain fuel page maxRepeats verbose' :
  only isPlain (scrollAndWaitForStability fuel page maxRepeats verbose').
Proof.
  pose proof scrollUntilNoChange_plain.
  unfold scrollAndWaitForStability, stabilityCheck; auto 20 with only.
Qed.

Lemma stability_notScreenshot fuel page maxRepeats verbose' :
  only notScreenshot (scrollAndWaitForStability fuel page maxRepeats verbose').
Proof.
  eapply only_weaken; [exact plain_notScreenshot|].
  apply scrollAndWaitForStability_plain.
Qed.

Lemma stability_notQueryNext fuel page maxRepeats verbose' :
  only notQueryNext (scrollAndWaitForStability fuel page maxRepeats verbose').
Proof.
  eapply only_weaken; [exact plain_notQueryNext|].
  apply scrollAndWaitForStability_plain.
Qed.

End Quiet.

#[export] Hint Resolve scrollUntilNoChange_plain scrollAndWaitForStability_plain
  stability_notScreenshot stability_notQueryNext : only.


(** ** The retry loop and one turn of the page loop *)

Section Pages.
Context {E : Env}.
Variable argv : Argv.

Lemma retryAttempt_shape fuel page pageCount st w :
  let r := retryAttempt argv fuel page pageCount st w in
  exists q rest, trace r = Did (QueryCards page) q :: rest
    /\ Forall (fun e => isPlain e = true) rest
    /\ forall st', outcome r = Ok st' ->
         attempts st' = S (attempts st)
         /\ exists cards, q = inr cards
            /\ productData st' = map extractFieldsFromCard cards
            /\ (validDataFound st = false ->
                validDataFound st'
                = negb (hasInvalidEntries (productData st'))).
Proof.
  intros r; subst r; unfold retryAttempt.
  rewrite bind_trace, bind_outcome, perform_run; cbn [outcome world trace].
  destruct (answer (QueryCards page) w) as [[e|cards] w1]; cbn [fst snd].
  - exists (inl e), []; repeat split; try constructor; discriminate.
  - exists (inr cards); eexists; split; [reflexivity|].
    split; [by_only|by_returns].
    all: split; [reflexivity|]; exists cards; repeat split;
      cbn [validDataFound productData]; unfold hasInvalidEntries;
      intros Hv;
      match goal with H : (0 <? _) = _ |- _ => now rewrite H, ?Hv end.
Qed.

Lemma retryLoop_attempts fuel inner page pageCount st w :
  count isQueryCards
    (trace (while fuel
              (fun st => negb (validDataFound st) && (attempts st <? 3))
              (retryAttempt argv inner page pageCount) st w))
  <= 3 - attempts st.
Proof.
  revert st w; induction fuel as [|fuel IH]; intros st w; cbn [while].
  { apply Nat.le_0_l. }
  destruct (negb (validDataFound st) && (attempts st <? 3)) eqn:Hc;
    [|apply Nat.le_0_l].
  apply andb_true_iff in Hc; destruct Hc as [_ Hc]; apply Nat.ltb_lt in Hc.
  rewrite bind_trace, count_app.
  destruct (retryAttempt_shape inner page pageCount st w)
    as [q [rest [Ht [Hrest Hok]]]].
  rewrite Ht.
  change (Did (QueryCards page) q :: rest)
    with ([Did (QueryCards page) q] ++ rest).
  rewrite count_app, (@count_none _ _ _ plain_not_query Hrest).
  change (count isQueryCards [Did (QueryCards page) q]) with 1.
  destruct (outcome (retryAttempt argv inner page pageCount st w)) as [st1| |];
    try (change (count isQueryCards []) with 0; lia).
  destruct (Hok st1 eq_refl) as [Ha _].
  specialize (IH st1 (world (retryAttempt argv inner page pageCount st w))).
  rewrite Ha in IH; lia.
Qed.

Lemma retryLoop_ends fuel page pageCount w data :
  outcome (retryLoop argv fuel page pageCount w) = Ok data ->
  exists cards,
    lastCards (trace (retryLoop argv fuel page pageCount w)) = Some cards
    /\ data = map extractFieldsFromCard cards.
Proof.
  unfold retryLoop; intros H.
  apply bind_ok_inv in H; destruct H as [st [Hw [H Ht]]].
  destruct Ht as [Ht _]; rewrite Ht; clear Ht.
  set (I := fun (st : RetryState) (d : Trace) =>
         (attempts st = 0 /\ validDataFound st = false)
         \/ exists cards, lastCards d = Some cards
                          /\ productData st = map extractFieldsFromCard cards).
  assert (Hbody : forall s d w0 s', I s d ->
            negb (validDataFound s) && (attempts s <? 3) = true ->
            outcome (retryAttempt argv fuel page pageCount s w0) = Ok s' ->
            I s' (d ++ trace (retryAttempt argv fuel page pageCount s w0))).
  { intros s d w0 s' _ _ Hs; right.
    destruct (retryAttempt_shape fuel page pageCount s w0)
      as [q [rest [Hq [Hrest Hok]]]].
    destruct (Hok s' Hs) as [_ [cards [-> [Hd _]]]].
    exists cards; split; [|exact Hd].
    rewrite Hq, lastCards_app; simpl; now rewrite (lastCards_plain Hrest). }
  assert (H0 : I {| validDataFound := false; attempts := 0; productData := [] |}
                 []) by (left; split; reflexivity).
  destruct (while_ends I _ _ Hbody fuel _ [] w H0 Hw) as [HI Hc].
  simpl in HI; destruct HI as [[Ha Hv]|[cards [Hl Hd]]].
  { rewrite Ha, Hv in Hc; discriminate. }
  exists cards; split.
  - rewrite lastCards_app.
    rewrite lastCards_plain; [exact Hl|].
    by_only.
  - revert H; revert data; by_returns; now rewrite Hd.
Qed.

Lemma retryLoop_notScreenshot fuel page pageCount :
  only notScreenshot (retryLoop argv fuel page pageCount).
Proof.
  pose proof stability_notScreenshot.
  unfold retryLoop, retryAttempt; auto 30 with only.
Qed.

Lemma retryLoop_notQueryNext fuel page pageCount :
  only notQueryNext (retryLoop argv fuel page pageCount).
Proof.
  pose proof stability_notQueryNext.
  unfold retryLoop, retryAttempt; auto 30 with only.
Qed.

Lemma scrapePage_shape fuel page all pc w :
  let r := scrapePage argv fuel page (all, pc) w in
  exists A B,
    trace r = A ++ B
    /\ Forall (fun e => isPlain e = true) A
    /\ ((B = [] /\ forall x, outcome r <> Ok x)
        \/ exists q B',
             B = Did (Screenshot page (S pc)) q :: B'
             /\ Forall (fun e => notScreenshot e = true) B'
             /\ forall x, outcome r = Ok x ->
                  (exists cards, lastCards B' = Some cards
                     /\ accumulated x = all ++ map extractFieldsFromCard cards)
                  /\ match x with
                     | Continue s => snd s = S pc /\ S pc < MAX_PAGES
                     | Break _ => True
                     end
                  /\ (MAX_PAGES <= S pc ->
                      count isQueryNext B' = 0 /\ exists a, x = Break a)).
Proof.
  intros r; subst r; unfold scrapePage; cbn [fst snd].
  rewrite bind_when_log.
  set (L := if verbose argv then _ else _).
  assert (HL : Forall (fun e => isPlain e = true) L)
    by (subst L; destruct (verbose argv); repeat constructor).
  pose proof (scrollAndWaitForStability_plain fuel page 5 false w) as Hd1.
  destruct (scrollAndWaitForStability fuel page 5 false w)
    as [[[]|e|] w1 d1] eqn:Hs; cbn [trace] in Hd1.
  2,3: (rewrite (bind_Throw _ Hs) || rewrite (bind_Diverge _ Hs));
    exists (L ++ d1), []; cbn [after trace outcome];
    rewrite app_nil_r; split; [reflexivity|]; split;
    [ apply Forall_app; now split | left; split; [reflexivity|discriminate] ].
  rewrite (bind_Ok _ Hs), after_after, bind_perform.
  destruct (answer (Screenshot page (S pc)) w1) as [[e|[]] w2]; cbn [fst snd].
  { exists (L ++ d1), [Did (Screenshot page (S pc)) (inl e)].
    cbn [after trace outcome]; split; [reflexivity|].
    split; [apply Forall_app; now split|].
    right; exists (inl e), []; split; [reflexivity|].
    split; [constructor|discriminate]. }
  rewrite after_after.
  match goal with
  | |- context [after _ (?c w2)] => set (K := c)
  end.
  exists (L ++ d1), (Did (Screenshot page (S pc)) (inr tt) :: trace (K w2)).
  cbn [after trace outcome].
  split; [now rewrite <- !app_assoc|].
  split; [apply Forall_app; now split|].
  right; exists (inr tt), (trace (K w2)); split; [reflexivity|].
  split.
  { subst K. pose proof retryLoop_notScreenshot. by_only. }
  intros x Hx; subst K.
  rewrite !bind_when_log in Hx |- *.
  cbn [after outcome trace] in Hx |- *.
  apply bind_ok_inv in Hx; destruct Hx as [data [Hr [Hx [Ht _]]]].
  rewrite Ht; clear Ht.
  destruct (retryLoop_ends _ _ _ _ Hr) as [cards [Hl ->]].
  set (w3 := world (retryLoop argv fuel page (S pc) w2)) in *.
  pose proof (retryLoop_notQueryNext fuel page (S pc) w2) as Hnn.
  set (dr := trace (retryLoop argv fuel page (S pc) w2)) in *.
  match type of Hx with
  | outcome (?c w3) = _ => set (T := c) in *
  end.
  assert (HT : Forall (fun e => inDeciding e = true) (trace (T w3)))
    by (subst T; by_only).
  assert (Hlast : forall l1 l2 : Trace,
            Forall (fun e => isPlain e = true) l1 ->
            Forall (fun e => isPlain e = true) l2 ->
            lastCards (l1 ++ l2 ++ dr ++ trace (T w3)) = Some cards).
  { intros l1 l2 H1 H2; rewrite !lastCards_app, Hl.
    rewrite lastCards_none; [reflexivity|].
    eapply Forall_impl; [|exact HT]; exact inDeciding_not_query. }
  split; [|split].
  - exists cards; split.
    + apply Hlast; destruct (verbose argv); repeat constructor.
    + revert Hx; revert x; subst T; by_returns; reflexivity.
  - revert Hx; revert x; subst T; by_returns; try exact I.
    split; [reflexivity|].
    match goal with
    | H : (_ <=? _) = false |- _ => apply Nat.leb_gt in H; exact H
    end.
  - intros Hcap; apply Nat.leb_le in Hcap; subst T; rewrite Hcap in *.
    split.
    + rewrite !count_app, (@count_none _ _ _ notQueryNext_false Hnn).
      rewrite bind_when_log; cbn [after trace].
      destruct (verbose argv); reflexivity.
    + revert Hx; revert x; by_returns; eauto.
Qed.
End Pages.

(** ** The page loop *)

Lemma cut_no_screenshot d :
  Forall (fun e => notScreenshot e = true) d -> cutAtScreenshots d = (d, []).
Proof.
  induction 1 as [|e d He _ IH]; simpl; [reflexivity|].
  now rewrite IH, (notScreenshot_false _ He).
Qed.

Lemma cut_app_no_screenshot d1 d2 :
  Forall (fun e => notScreenshot e = true) d1 ->
  cutAtScreenshots (d1 ++ d2)
  = (d1 ++ fst (cutAtScreenshots d2), snd (cutAtScreenshots d2)).
Proof.
  induction 1 as [|e d He _ IH]; simpl.
  - now destruct (cutAtScreenshots d2).
  - now rewrite IH, (notScreenshot_false _ He).
Qed.

Lemma cut_page A q page n B rest :
  Forall (fun e => isPlain e = true) A ->
  Forall (fun e => notScreenshot e = true) B ->
  cutAtScreenshots (A ++ Did (Screenshot page n) q :: B ++ rest)
  = (A, (B ++ fst (cutAtScreenshots rest)) :: snd (cutAtScreenshots rest)).
Proof.
  intros HA HB.
  rewrite cut_app_no_screenshot
    by (eapply Forall_impl; [|exact HA]; exact plain_notScreenshot).
  simpl; rewrite (cut_app_no_screenshot _ HB); simpl.
  now rewrite app_nil_r.
Qed.

Lemma pageSnapshots_page A q page n B rest cards :
  Forall (fun e => isPlain e = true) A ->
  Forall (fun e => notScreenshot e = true) B ->
  lastCards B = Some cards ->
  lastCards (fst (cutAtScreenshots rest)) = None ->
  pageSnapshots (A ++ Did (Screenshot page n) q :: B ++ rest)
  = cards :: pageSnapshots rest.
Proof.
  intros HA HB Hl Hr; unfold pageSnapshots.
  rewrite cut_page by assumption; cbn [snd map].
  now rewrite lastCards_app, Hr, Hl.
Qed.

Lemma count_page A q page n B rest :
  Forall (fun e => isPlain e = true) A ->
  Forall (fun e => notScreenshot e = true) B ->
  count isScreenshot (A ++ Did (Screenshot page n) q :: B ++ rest)
  = S (count isScreenshot rest).
Proof.
  intros HA HB.
  change (Did (Screenshot page n) q :: B ++ rest)
    with ([Did (Screenshot page n) q] ++ B ++ rest).
  rewrite !count_app, (@count_none _ _ _ plain_not_screenshot HA),
    (@count_none _ _ _ notScreenshot_false HB).
  reflexivity.
Qed.

Lemma snapshots_app_plain d1 d2 :
  Forall (fun e => isPlain e = true) d2 ->
  map (fun piece => cardsOrNone (lastCards piece))
    (snd (cutAtScreenshots (d1 ++ d2)))
  = map (fun piece => cardsOrNone (lastCards piece))
      (snd (cutAtScreenshots d1))
  /\ lastCards (fst (cutAtScreenshots (d1 ++ d2)))
     = lastCards (fst (cutAtScreenshots d1)).
Proof.
  intros H2; induction d1 as [|e d1 [IH1 IH2]]; simpl.
  - rewrite cut_no_screenshot
      by (eapply Forall_impl; [|exact H2]; exact plain_notScreenshot).
    split; [reflexivity|now apply lastCards_plain].
  - destruct (cutAtScreenshots (d1 ++ d2)) as [pre ps].
    destruct (cutAtScreenshots d1) as [pre1 ps1]; simpl in *.
    destruct (isScreenshot e); simpl.
    + split; [now rewrite IH1, IH2|reflexivity].
    + split; [exact IH1|now rewrite IH2].
Qed.

Lemma pageSnapshots_app_plain d1 d2 :
  Forall (fun e => isPlain e = true) d2 ->
  pageSnapshots (d1 ++ d2) = pageSnapshots d1.
Proof. intros H; apply snapshots_app_plain, H. Qed.

Lemma pageSnapshots_plain_app d1 d2 :
  Forall (fun e => isPlain e = true) d1 ->
  pageSnapshots (d1 ++ d2) = pageSnapshots d2.
Proof.
  intros H; unfold pageSnapshots.
  now rewrite cut_app_no_screenshot
    by (eapply Forall_impl; [|exact H]; exact plain_notScreenshot).
Qed.

Section PageLoop.
Context {E : Env}.
Variable argv : Argv.

Lemma scrapeLoop_snapshots fuel inner page : forall all pc w,
  let r := loop fuel (scrapePage argv inner page) (all, pc) w in
  lastCards (fst (cutAtScreenshots (trace r))) = None
  /\ (pc < MAX_PAGES -> count isScreenshot (trace r) <= MAX_PAGES - pc)
  /\ forall res, outcome r = Ok res ->
       res = all ++ List.concat (map (map extractFieldsFromCard)
                                   (pageSnapshots (trace r))).
Proof.
  induction fuel as [|fuel IH]; intros all pc w r; subst r.
  { cbn [loop diverge trace outcome]; split; [reflexivity|].
    split; [intros _; apply Nat.le_0_l|discriminate]. }
  cbn [loop]; rewrite bind_trace, bind_outcome.
  destruct (scrapePage_shape argv inner page all pc w)
    as [A [B [Ht [HA HB]]]].
  rewrite Ht; clear Ht.
  set (w1 := world (scrapePage argv inner page (all, pc) w)).
  destruct HB as [[-> Hno]|[q [B' [-> [HB' Hok]]]]].
  - destruct (outcome (scrapePage argv inner page (all, pc) w)) as [x| |];
      [now elim (Hno x)| |];
      rewrite !app_nil_r, cut_no_screenshot
        by (eapply Forall_impl; [|exact HA]; exact plain_notScreenshot);
      cbn [fst]; (split; [now apply lastCards_plain|]);
      (split; [|discriminate]); intros _;
      rewrite (@count_none _ _ _ plain_not_screenshot HA); apply Nat.le_0_l.
  - rewrite <- app_assoc, <- app_comm_cons.
    destruct (outcome (scrapePage argv inner page (all, pc) w)) as [x| |].
    2,3: rewrite cut_page, count_page by assumption; cbn [fst];
      (split; [now apply lastCards_plain|]); (split; [|discriminate]);
      intros Hpc; change (count isScreenshot []) with 0; lia.
    destruct (Hok x eq_refl) as [[cards [Hl Hacc]] [Hx _]].
    rewrite cut_page, count_page by assumption; cbn [fst].
    split; [now apply lastCards_plain|].
    destruct x as [[a pc']|a]; cbn [accumulated fst snd] in *.
    + destruct Hx as [-> Hlt].
      destruct (IH a (S pc) w1) as [IH1 [IH2 IH3]].
      split; [intros _; specialize (IH2 Hlt); lia|].
      intros res Hres; rewrite (IH3 res Hres).
      rewrite (pageSnapshots_page _ _ _ _ HA HB' Hl IH1).
      cbn [map List.concat]; rewrite Hacc; now rewrite <- app_assoc.
    + split.
      { intros Hpc; change (count isScreenshot (trace (ret a w1))) with 0.
        lia. }
      intros res Hres; inversion Hres; subst res.
      change (trace (ret a w1)) with (@nil Event).
      rewrite (pageSnapshots_page _ _ _ [] HA HB' Hl eq_refl).
      cbn [map List.concat pageSnapshots cutAtScreenshots snd].
      now rewrite app_nil_r.
Qed.
End PageLoop.

Section PageRuns.
Context {E : Env}.
Variable argv : Argv.

Lemma scrapeLoop_fuel inner page : forall k fuel all pc w,
  pc + k = MAX_PAGES -> 1 <= k -> k <= fuel ->
  loop fuel (scrapePage argv inner page) (all, pc) w
  = loop k (scrapePage argv inner page) (all, pc) w.
Proof.
  induction k as [|k IH]; intros fuel all pc w Hpc Hk Hf; [lia|].
  destruct fuel as [|fuel]; [lia|]; cbn [loop].
  apply bind_cong_ok; intros [[a pc']|a] Hx; [|reflexivity].
  destruct (scrapePage_shape argv inner page all pc w)
    as [A [B [_ [_ [[_ Hno]|[q [B' [_ [_ Hok]]]]]]]]];
    [now elim (Hno _ Hx)|].
  destruct (Hok _ Hx) as [_ [[Hp Hlt] _]]; cbn [snd] in Hp; subst pc'.
  apply IH; lia.
Qed.

Lemma scrapePage_last fuel page all pc w x :
  outcome (scrapePage argv fuel page (all, pc) w) = Ok x ->
  exists cards,
    lastCards (trace (scrapePage argv fuel page (all, pc) w)) = Some cards
    /\ accumulated x = all ++ map extractFieldsFromCard cards
    /\ (MAX_PAGES <= S pc ->
        count isQueryNext (trace (scrapePage argv fuel page (all, pc) w)) = 0
        /\ x = Break (all ++ map extractFieldsFromCard cards)).
Proof.
  intros Hx.
  destruct (scrapePage_shape argv fuel page all pc w)
    as [A [B [Ht [HA [[_ Hno]|[q [B' [-> [HB' Hok]]]]]]]]];
    [now elim (Hno _ Hx)|].
  destruct (Hok _ Hx) as [[cards [Hl Hacc]] [_ Hcap]].
  exists cards; rewrite Ht; split; [|split].
  - rewrite lastCards_app; cbn [lastCards]; now rewrite Hl.
  - exact Hacc.
  - intros Hmax; destruct (Hcap Hmax) as [Hn [a ->]]; split.
    + change (Did (Screenshot page (S pc)) q :: B')
        with ([Did (Screenshot page (S pc)) q] ++ B').
      rewrite !count_app, Hn, (@count_none _ _ _ plain_not_next HA).
      reflexivity.
    + now rewrite <- Hacc.
Qed.

Lemma scrapeAllProducts_trace fuel page initialUrl w :
  let r := scrapeAllProducts argv fuel page initialUrl w in
  count isScreenshot (trace r) <= MAX_PAGES
  /\ forall res, outcome r = Ok res ->
       res = List.concat (map (map extractFieldsFromCard)
                            (pageSnapshots (trace r))).
Proof.
  intros r; subst r; unfold scrapeAllProducts.
  rewrite bind_log, bind_perform.
  destruct (answer (Goto page initialUrl (Some "networkidle2"%string)) w)
    as [[e|[]] w1]; cbn [fst snd].
  { cbn [after trace outcome]; split; [|discriminate].
    unfold count; simpl; lia. }
  rewrite bind_when_log, bind_delay, !after_after.
  set (P := _ ++ _).
  assert (HP : Forall (fun e => isPlain e = true) P)
    by (subst P; destruct (verbose argv); repeat constructor).
  cbn [after trace outcome].
  rewrite bind_trace, bind_outcome.
  destruct (scrapeLoop_snapshots argv fuel fuel page [] 0 (elapse 5000 w1))
    as [_ [Hc Hres]].
  set (l := loop fuel (scrapePage argv fuel page) ([], 0) (elapse 5000 w1)) in *.
  assert (Hsuffix : Forall (fun e => isPlain e = true)
            match outcome l with
            | Ok a => trace ((log
                (Info "Finished scraping. Total products scraped"
                   [Z.of_nat (Datatypes.length a)]);; ret a) (world l))
            | _ => []
            end).
  { destruct (outcome l); repeat constructor. }
  split.
  - rewrite !count_app, (@count_none _ _ _ plain_not_screenshot HP),
      (@count_none _ _ _ plain_not_screenshot Hsuffix).
    specialize (Hc ltac:(unfold MAX_PAGES; lia)); lia.
  - intros res Hr.
    rewrite pageSnapshots_plain_app by exact HP.
    rewrite pageSnapshots_app_plain by exact Hsuffix.
    destruct (outcome l) as [a| |]; try discriminate.
    cbn in Hr; inversion Hr; subst res.
    now rewrite (Hres a eq_refl).
Qed.

End PageRuns.

(** ** The retry loop unrolled *)

Section Unrolled.
Context {E : Env}.
Variable argv : Argv.

Lemma retry_step B f inner page pc st (K : RetryState -> M B) w :
  validDataFound st = false -> attempts st < 3 ->
  bind (while (S f) (fun st => negb (validDataFound st) && (attempts st <? 3))
          (retryAttempt argv inner page pc) st) K w
  = bind (perform (QueryCards page)) (fun cards =>
      let data := map extractFieldsFromCard cards in
      let continue valid :=
        bind (while f (fun st => negb (validDataFound st) && (attempts st <? 3))
                (retryAttempt argv inner page pc)
                {| validDataFound := valid; attempts := S (attempts st);
                   productData := data |}) K in
      if hasInvalidEntries data then
        when (verbose argv)
          (log (Info "ERROR: INVALID PRODUCT ENTRIES. Retrying..."
                  [Z.of_nat (List.length (invalidEntries data)); Z.of_nat pc;
                   Z.of_nat (S (attempts st))]));;
        delay 3000;;
        scrollAndWaitForStability inner page 5 false;;
        continue false
      else continue true) w.
Proof.
  intros Hv Ha; cbn [while].
  replace (negb (validDataFound st) && (attempts st <? 3)) with true
    by (rewrite Hv; symmetry; apply Nat.ltb_lt in Ha; now rewrite Ha).
  rewrite bind_assoc; unfold retryAttempt; rewrite bind_assoc.
  apply bind_cong; intros cards w1; cbv zeta.
  change (0 <? List.length (invalidEntries (map extractFieldsFromCard cards)))
    with (hasInvalidEntries (map extractFieldsFromCard cards)).
  destruct (hasInvalidEntries (map extractFieldsFromCard cards)).
  - rewrite bind_assoc; apply bind_cong; intros _ w2.
    rewrite bind_assoc; apply bind_cong; intros _ w3.
    rewrite bind_assoc; apply bind_cong; intros _ w4.
    now rewrite bind_ret, Hv.
  - now rewrite bind_ret.
Qed.

Lemma retry_done B f inner page pc st (K : RetryState -> M B) w :
  negb (validDataFound st) && (attempts st <? 3) = false ->
  bind (while (S f) (fun st => negb (validDataFound st) && (attempts st <? 3))
          (retryAttempt argv inner page pc) st) K w
  = K st w.
Proof. intros Hc; cbn [while]; rewrite Hc; apply bind_ret. Qed.


End Unrolled.


(** ** The run coordinator *)

Section Coordinator.
Context {E : Env}.
Variable argv : Argv.
Variable AUTH : string.

Lemma logProducts_notCleanup allProducts : forall i,
  only notCleanup (logProducts i allProducts).
Proof.
  induction allProducts as [|p rest IH]; intros i; simpl; auto with only.
Qed.

Lemma scrapeWithBrowser_notCleanup fuel browser :
  only notCleanup (scrapeWithBrowser argv fuel browser).
Proof.
  pose proof logProducts_notCleanup.
  unfold scrapeWithBrowser, scrapeAllProducts, scrapePage, retryLoop,
    retryAttempt, scrollAndWaitForStability, stabilityCheck,
    scrollUntilNoChange, scrollOnce, changeStore, writeToCSV.
  auto 60 with only.
Qed.

Lemma notCleanup_close d :
  Forall (fun e => notCleanup e = true) d -> count isCloseBrowser d = 0.
Proof.
  apply count_none; intros e H; apply andb_true_iff in H.
  destruct H as [H _]; now apply negb_true_iff in H.
Qed.

Lemma notCleanup_exit d :
  Forall (fun e => notCleanup e = true) d -> count isExit d = 0.
Proof.
  apply count_none; intros e H; apply andb_true_iff in H.
  destruct H as [_ H]; now apply negb_true_iff in H.
Qed.

Lemma connectToBrowser_run auth w :
  connectToBrowser auth false w
  = {| outcome := match fst (answer (Connect auth) w) with
                  | inl e => Throw e
                  | inr b => Ok b
                  end;
       world := snd (answer (Connect auth) w);
       trace := [Did (Connect auth) (fst (answer (Connect auth) w))] |}.
Proof.
  unfold connectToBrowser; cbn [when]; rewrite bind_ret, bind_perform.
  destruct (answer (Connect auth) w) as [[e|b] w1]; cbn [fst snd];
    [reflexivity|].
  now rewrite bind_ret.
Qed.

Lemma bind_attempt A B (c : M A) (f : Error + A -> M B) w :
  bind (attempt c) f w
  = match outcome (c w) with
    | Ok a => after (trace (c w)) (f (inr a) (world (c w)))
    | Throw e => after (trace (c w)) (f (inl e) (world (c w)))
    | Diverge => {| outcome := Diverge; world := world (c w);
                    trace := trace (c w) |}
    end.
Proof.
  unfold bind, attempt; destruct (c w) as [[a|e|] w1 d1]; reflexivity.
Qed.

Lemma cleanup_none w :
  cleanup None w = {| outcome := Ok tt; world := w; trace := [Exited 0] |}.
Proof. reflexivity. Qed.

Lemma cleanup_some browser w :
  cleanup (Some browser) w
  = match fst (answer (CloseBrowser browser) w) with
    | inr _ =>
        {| outcome := Ok tt; world := snd (answer (CloseBrowser browser) w);
           trace := [Logged (Info "Closing the browser..." []);
                     Did (CloseBrowser browser) (inr tt);
                     Logged (Info "Browser closed." []);
                     Exited 0] |}
    | inl e =>
        {| outcome := Throw e; world := snd (answer (CloseBrowser browser) w);
           trace := [Logged (Info "Closing the browser..." []);
                     Did (CloseBrowser browser) (inl e)] |}
    end.
Proof.
  unfold cleanup; rewrite bind_assoc, bind_log, bind_assoc, bind_perform.
  destruct (answer (CloseBrowser browser) w) as [[e|[]] w1]; reflexivity.
Qed.

End Coordinator.

Ltac count_cleanup :=
  rewrite ?count_app;
  repeat match goal with
         | H : Forall (fun e => notCleanup e = true) ?d |- _ =>
             rewrite ?(notCleanup_close H), ?(notCleanup_exit H); clear H
         end.

(** ** The scroll loop on a page of given heights and counts *)

Section Stream.
Variables heights counts : nat -> Z.

Lemma scrollOnce_stream page scrollStep scrollDelay previousHeight n m :
  scrollOnce (E := streamEnv heights counts) page scrollStep scrollDelay
    previousHeight (n, m)
  = Build_Run (E := streamEnv heights counts)
      (Ok (if (heights n =? previousHeight)%Z then Break tt
           else Continue (heights n)))
      (S n, m)
      [Did (EvalScrollBy page scrollStep) (inr tt);
       Slept scrollDelay;
       Did (EvalScrollHeight page) (inr (heights n))].
Proof.
  unfold scrollOnce, bind, perform, delay; cbn.
  destruct (heights n =? previousHeight)%Z; reflexivity.
Qed.

Lemma scrollLoop_stops page scrollStep scrollDelay m : forall fuel k n,
  k < fuel ->
  (forall i, i < k -> heights (S (n + i)) <> heights (n + i)) ->
  heights (S (n + k)) = heights (n + k) ->
  let r := loop (E := streamEnv heights counts) fuel
             (scrollOnce page scrollStep scrollDelay) (heights n) (S n, m) in
  outcome r = Ok tt /\ world r = (S (S (n + k)), m)
  /\ count isScroll (trace r) = S k.
Proof.
  induction fuel as [|fuel IH]; intros k n Hk Hne Heq r; subst r; [lia|].
  cbn [loop];
    rewrite (bind_Ok _ (scrollOnce_stream page scrollStep scrollDelay
                          (heights n) (S n) m)).
  destruct k as [|k].
  - rewrite Nat.add_0_r in Heq; rewrite Heq, Z.eqb_refl.
    rewrite Nat.add_0_r; repeat split.
  - assert (H0 : heights (S n) <> heights n)
      by (specialize (Hne 0 ltac:(lia)); now rewrite Nat.add_0_r in Hne).
    apply Z.eqb_neq in H0; rewrite H0.
    destruct (IH k (S n)) as [Ho [Hw Hc]].
    + lia.
    + intros i Hi; specialize (Hne (S i) ltac:(lia)).
      now rewrite <- !Nat.add_succ_comm in Hne.
    + now rewrite <- !Nat.add_succ_comm in Heq.
    + cbn [after outcome world trace]; rewrite Ho, Hw.
      split; [reflexivity|]; split; [f_equal; lia|].
      rewrite count_app, Hc; reflexivity.
Qed.

Lemma scrollLoop_runs page scrollStep scrollDelay m : forall fuel n,
  (forall i, i < fuel -> heights (S (n + i)) <> heights (n + i)) ->
  let r := loop (E := streamEnv heights counts) fuel
             (scrollOnce page scrollStep scrollDelay) (heights n) (S n, m) in
  outcome r = Diverge /\ count isScroll (trace r) = fuel.
Proof.
  induction fuel as [|fuel IH]; intros n Hne r; subst r; [now split|].
  cbn [loop];
    rewrite (bind_Ok _ (scrollOnce_stream page scrollStep scrollDelay
                          (heights n) (S n) m)).
  assert (H0 : heights (S n) <> heights n)
    by (specialize (Hne 0 ltac:(lia)); now rewrite Nat.add_0_r in Hne).
  apply Z.eqb_neq in H0; rewrite H0.
  destruct (IH (S n)) as [Ho Hc].
  { intros i Hi; specialize (Hne (S i) ltac:(lia)).
    now rewrite <- !Nat.add_succ_comm in Hne. }
  cbn [after outcome world trace]; rewrite Ho; split; [reflexivity|].
  rewrite count_app, Hc; reflexivity.
Qed.

Lemma scrollUntilNoChange_stream fuel page scrollStep scrollDelay m :
  scrollUntilNoChange (E := streamEnv heights counts) fuel page scrollStep
    scrollDelay (0, m)
  = after [Did (EvalScrollHeight page) (inr (heights 0))]
      (loop (E := streamEnv heights counts) fuel
         (scrollOnce page scrollStep scrollDelay) (heights 0) (1, m)).
Proof. reflexivity. Qed.

(** In this world the scroll loop never throws and never counts cards. *)
Lemma scrollLoop_safe page scrollStep scrollDelay : forall fuel prev w,
  let r := loop (E := streamEnv heights counts) fuel
             (scrollOnce page scrollStep scrollDelay) prev w in
  (outcome r = Ok tt \/ outcome r = Diverge) /\ snd (world r) = snd w.
Proof.
  induction fuel as [|fuel IH]; intros prev [n m] r; subst r;
    [split; [now right|reflexivity]|].
  cbn [loop];
    rewrite (bind_Ok _ (scrollOnce_stream page scrollStep scrollDelay
                          prev n m)).
  destruct (heights n =? prev)%Z; [split; [now left|reflexivity]|].
  destruct (IH (heights n) (S n, m)) as [Ho Hw]; cbn [after outcome world].
  split; assumption.
Qed.

Lemma scrollUntilNoChange_safe fuel page scrollStep scrollDelay w :
  let r := scrollUntilNoChange (E := streamEnv heights counts) fuel page
             scrollStep scrollDelay w in
  (outcome r = Ok tt \/ outcome r = Diverge) /\ snd (world r) = snd w.
Proof.
  destruct w as [n m]; unfold scrollUntilNoChange.
  rewrite bind_perform; cbn [answer streamEnv fst snd after outcome world].
  apply (scrollLoop_safe page scrollStep scrollDelay fuel (heights n) (S n, m)).
Qed.

Lemma stabilityCheck_stream fuel page verbose' st w :
  let r := stabilityCheck (E := streamEnv heights counts) fuel page verbose' st w in
  outcome r = Diverge
  \/ (outcome r
      = Ok (if (counts (snd w) =? lastCount st)%Z
            then {| stableCountRepeats := S (stableCountRepeats st);
                    lastCount := lastCount st |}
            else {| stableCountRepeats := 0; lastCount := counts (snd w) |})
      /\ snd (world r) = S (snd w)).
Proof.
  intros r; subst r; unfold stabilityCheck.
  destruct (scrollUntilNoChange_safe fuel page 1000 500 w) as [Ho Hw].
  destruct (scrollUntilNoChange fuel page 1000 500 w) as [o [n' m'] d] eqn:Hs.
  cbn [outcome world snd] in Ho, Hw; subst m'.
  destruct Ho as [->| ->];
    [rewrite (bind_Ok _ Hs)|rewrite (bind_Diverge _ Hs); now left].
  right; rewrite bind_delay, bind_perform.
  cbn [answer streamEnv fst snd elapse].
  rewrite bind_when_log; cbn [after outcome world].
  destruct (counts (snd w) =? lastCount st)%Z; split; reflexivity.
Qed.

Lemma stability_never_settles page verbose' maxRepeats fuel :
  0 < maxRepeats ->
  (forall i, counts (S i) <> counts i) ->
  forall k l w,
    counts (snd w) <> l ->
    outcome (while (E := streamEnv heights counts) k
               (fun st => stableCountRepeats st <? maxRepeats)
               (stabilityCheck fuel page verbose')
               {| stableCountRepeats := 0; lastCount := l |} w)
    = Diverge.
Proof.
  intros Hmax Hc; induction k as [|k IH]; intros l w Hl; [reflexivity|].
  cbn [while stableCountRepeats].
  replace (0 <? maxRepeats) with true by (symmetry; now apply Nat.ltb_lt).
  rewrite bind_outcome.
  destruct (stabilityCheck_stream fuel page verbose'
              {| stableCountRepeats := 0; lastCount := l |} w)
    as [->|[-> Hw]]; [reflexivity|].
  apply Z.eqb_neq in Hl; cbn [lastCount]; rewrite Hl.
  apply IH; rewrite Hw; apply Hc.
Qed.

End Stream.

(** ** The stability detector on scripted counts *)

Section Script.
Existing Instance scriptEnv.







Lemma loggedFinalCount_last d n :
  loggedFinalCount (d ++ [Logged (Info "Final stable product card count" [n])])
  = Some n.
Proof. induction d as [|e d IH]; simpl; [reflexivity|now rewrite IH]. Qed.







End Script.

(** * The claims of the design document *)

Section Claims.
Context {E : Env}.
Variable argv : Argv.

Lemma retryLoop_count fuel page pageCount w :
  count isQueryCards (trace (retryLoop argv fuel page pageCount w)) <= 3.
Proof.
  unfold retryLoop; rewrite bind_trace, count_app.
  pose proof (retryLoop_attempts argv fuel fuel page pageCount
                {| validDataFound := false; attempts := 0; productData := [] |}
                w) as Hw.
  cbn [attempts] in Hw.
  match goal with
  | |- _ + count _ ?t <= _ =>
      assert (Ht : Forall (fun e => isPlain e = true) t)
  end.
  { destruct (outcome _); [by_only|constructor|constructor]. }
  rewrite (@count_none _ _ _ plain_not_query Ht); lia.
Qed.

(** C1. Whatever the site answers, a run takes at most 20 screenshots, one
    per page it processes, and the page loop never needs a 21st turn.  On
    the 20th page the loop is left as soon as the page's records are
    appended: the "next" control is not looked at, and the records of that
    page are in the result. *)
Theorem page_cap :
  (forall fuel page initialUrl w,
     count isScreenshot (trace (scrapeAllProducts argv fuel page initialUrl w))
     <= 20)
  /\ (forall fuel inner page all w,
        20 <= fuel ->
        loop fuel (scrapePage argv inner page) (all, 0) w
        = loop 20 (scrapePage argv inner page) (all, 0) w)
  /\ (forall fuel page all w x,
        outcome (scrapePage argv fuel page (all, 19) w) = Ok x ->
        count isQueryNext (trace (scrapePage argv fuel page (all, 19) w)) = 0
        /\ exists cards,
             lastCards (trace (scrapePage argv fuel page (all, 19) w))
             = Some cards
             /\ x = Break (all ++ map extractFieldsFromCard cards)).
Proof.
  split; [|split].
  - intros fuel page initialUrl w.
    apply (scrapeAllProducts_trace argv fuel page initialUrl w).
  - intros fuel inner page all w Hf.
    apply scrapeLoop_fuel; [reflexivity|lia|exact Hf].
  - intros fuel page all w x Hx.
    destruct (scrapePage_last argv fuel page all 19 w Hx)
      as [cards [Hl [_ Hcap]]].
    destruct (Hcap (Nat.le_refl _)) as [Hn Hb].
    split; [exact Hn|]; exists cards; now split.
Qed.



(** C5. A snapshot is classified invalid exactly when one of its records
    has the empty name or the price "$0.00"; the turn of the retry loop
    that extracted it reports valid data exactly when it is not; and a
    record priced "$0.00" is invalid whether the price texts were missing
    or spelled a zero price. *)
Theorem validation_governor :
  (forall productData,
     hasInvalidEntries productData = true
     <-> exists p, In p productData
                   /\ (productName p = [] \/ price p = str "$0.00"))
  /\ (forall fuel page pageCount st w st',
        validDataFound st = false ->
        outcome (retryAttempt argv fuel page pageCount st w) = Ok st' ->
        validDataFound st' = negb (hasInvalidEntries (productData st')))
  /\ (forall name,
        isInvalidEntry {| productName := name; price := str "$0.00" |} = true)
  /\ (forall title,
        isInvalidEntry (extractFieldsFromCard (cardOf title None None)) = true
        /\ isInvalidEntry
             (extractFieldsFromCard
                (cardOf title (Some "$0"%string) (Some "00"%string))) = true).
Proof.
  split; [|split; [|split]].
  - intros productData; rewrite hasInvalidEntries_exists.
    split; intros [p [Hin Hp]]; exists p; split; auto;
      now apply isInvalidEntry_iff.
  - intros fuel page pageCount st w st' Hv Hok.
    destruct (retryAttempt_shape argv fuel page pageCount st w)
      as [q [rest [_ [_ H]]]].
    destruct (H st' Hok) as [_ [cards [_ [_ Hv']]]]; exact (Hv' Hv).
  - intros name; apply isInvalidEntry_iff; now right.
  - intros title; split; apply isInvalidEntry_iff; right;
      rewrite price_composed; reflexivity.
Qed.

(** C8. The result of a run is the concatenation, in the order the pages
    were reached, of the records of each page's last extraction, and the
    records of an extraction are those of its cards in the order of the
    cards. *)
Theorem result_order fuel page initialUrl w res :
  outcome (scrapeAllProducts argv fuel page initialUrl w) = Ok res ->
  res = List.concat
          (map (map extractFieldsFromCard)
             (pageSnapshots
                (trace (scrapeAllProducts argv fuel page initialUrl w))))
  /\ forall cards i,
       nth_error (map extractFieldsFromCard cards) i
       = option_map extractFieldsFromCard (nth_error cards i).
Proof.
  intros Hres; split.
  - now apply (scrapeAllProducts_trace argv fuel page initialUrl w).
  - intros cards i; apply nth_error_map.
Qed.

(** C9. When a page shows no card the first extraction is accepted: the
    retry loop makes that one call, nothing else, and returns the empty
    snapshot, in which validation finds nothing invalid; and a page whose
    extraction found no card adds nothing to the result. *)
Theorem empty_page fuel page pageCount w :
  2 <= fuel ->
  fst (answer (QueryCards page) w) = inr [] ->
  retryLoop argv fuel page pageCount w
  = {| outcome := Ok [];
       world := snd (answer (QueryCards page) w);
       trace := [Did (QueryCards page) (inr [])] |}
  /\ hasInvalidEntries (map extractFieldsFromCard []) = false
  /\ forall all pc w' x,
       outcome (scrapePage argv fuel page (all, pc) w') = Ok x ->
       lastCards (trace (scrapePage argv fuel page (all, pc) w')) = Some [] ->
       accumulated x = all.
Proof.
  intros Hf Hq; split; [|split; [reflexivity|]].
  - destruct fuel as [|[|f]]; try lia.
    unfold retryLoop.
    rewrite (retry_step argv) by (cbn; lia || reflexivity).
    rewrite bind_perform, Hq; cbv beta iota zeta.
    change (hasInvalidEntries (map extractFieldsFromCard [])) with false.
    cbv iota; rewrite (retry_done argv) by reflexivity.
    reflexivity.
  - intros all pc w' x Hx Hl.
    destruct (scrapePage_last argv fuel page all pc w' Hx)
      as [cards [Hc [Hacc _]]].
    rewrite Hl in Hc; inversion Hc; subst cards.
    now rewrite Hacc, app_nil_r.
Qed.

(** C10. What the retry loop returns is the extraction of its last attempt
    alone, whatever the attempts before it gave; a turn of the page loop
    appends that one snapshot to the result; and the length of the result
    of a run is the sum of the lengths of the pages' last extractions. *)
Theorem one_snapshot_per_page :
  (forall fuel page pageCount w data,
     outcome (retryLoop argv fuel page pageCount w) = Ok data ->
     exists cards,
       lastCards (trace (retryLoop argv fuel page pageCount w)) = Some cards
       /\ data = map extractFieldsFromCard cards)
  /\ (forall fuel page all pc w x,
        outcome (scrapePage argv fuel page (all, pc) w) = Ok x ->
        exists cards,
          lastCards (trace (scrapePage argv fuel page (all, pc) w)) = Some cards
          /\ accumulated x = all ++ map extractFieldsFromCard cards
          /\ List.length (accumulated x)
             = List.length all + List.length cards)
  /\ (forall fuel page initialUrl w res,
        outcome (scrapeAllProducts argv fuel page initialUrl w) = Ok res ->
        List.length res
        = list_sum
            (map (@List.length Card)
               (pageSnapshots
                  (trace (scrapeAllProducts argv fuel page initialUrl w))))).
Proof.
  split; [|split].
  - intros fuel page pageCount w data; apply retryLoop_ends.
  - intros fuel page all pc w x Hx.
    destruct (scrapePage_last argv fuel page all pc w Hx)
      as [cards [Hl [Hacc _]]].
    exists cards; split; [exact Hl|split; [exact Hacc|]].
    now rewrite Hacc, length_app, length_map.
  - intros fuel page initialUrl w res Hres.
    rewrite (proj2 (scrapeAllProducts_trace argv fuel page initialUrl w)
               res Hres) at 1.
    generalize (pageSnapshots
                  (trace (scrapeAllProducts argv fuel page initialUrl w))).
    induction l as [|cards l IH]; [reflexivity|].
    cbn [map List.concat list_sum]; now rewrite length_app, length_map, IH.
Qed.

(** C4 (amended). An error thrown while connecting, setting up or scraping
    is caught and the run completes with the empty result, unless closing
    the browser itself throws.  The [finally] block closes the browser
    exactly once when the browser was connected, after a success and after
    a failure alike; when connecting failed there is no browser and nothing
    is closed.  The process exits once, unless closing throws. *)
Theorem coordinator_cleanup AUTH fuel w :
  let r := main argv AUTH fuel w in
  match fst (answer (Connect AUTH) w) with
  | inl e =>
      outcome r = Ok []
      /\ count isCloseBrowser (trace r) = 0
      /\ count isExit (trace r) = 1
  | inr browser =>
      let body :=
        scrapeWithBrowser argv fuel browser (snd (answer (Connect AUTH) w)) in
      match outcome body with
      | Diverge =>
          outcome r = Diverge
          /\ count isCloseBrowser (trace r) = 0
          /\ count isExit (trace r) = 0
      | completion =>
          count isCloseBrowser (trace r) = 1
          /\ match fst (answer (CloseBrowser browser) (world body)) with
             | inr _ =>
                 count isExit (trace r) = 1
                 /\ outcome r = match completion with
                                | Ok allProducts => Ok allProducts
                                | _ => Ok []
                                end
             | inl e => count isExit (trace r) = 0 /\ outcome r = Throw e
             end
      end
  end.
Proof.
  intros r; subst r; unfold main, tryWithLocal.
  rewrite bind_when_log.
  set (L := if verbose argv then _ else _).
  assert (HL : Forall (fun e => notCleanup e = true) L)
    by (subst L; destruct (verbose argv); repeat constructor).
  rewrite bind_attempt, connectToBrowser_run; cbn [outcome world trace].
  destruct (answer (Connect AUTH) w) as [[e|browser] w1]; cbn [fst snd].
  - cbn [after outcome trace world tryFinally bind log ret cleanup exit].
    count_cleanup; repeat split.
  - pose proof (scrapeWithBrowser_notCleanup argv fuel browser w1) as Hb.
    unfold tryFinally, tryCatch.
    destruct (scrapeWithBrowser argv fuel browser w1) as [[products|e|] w2 d2];
      cbn [outcome world trace after bind log ret] in *;
      [| |count_cleanup; repeat split];
      rewrite cleanup_some;
      destruct (answer (CloseBrowser browser) w2) as [[e'|[]] w3];
      cbn [fst snd outcome world trace after];
      count_cleanup; repeat split.
Qed.

End Claims.

(** C7. On a page whose successive heights are [heights 0], [heights 1],
    ..., the scroll loop stops at the first measurement that equals the
    one before it, after one scroll per measurement made in the loop, and
    at no other; while the heights keep changing it goes on for as long as
    it is given fuel, so on heights that grow at every measurement it never
    returns.  The stabilization loop has no bound of its own either: on
    counts that never repeat it never returns. *)
Theorem scroll_loop_unbounded (heights counts : nat -> Z) page scrollStep
    scrollDelay :
  let scroll fuel :=
    scrollUntilNoChange (E := streamEnv heights counts) fuel page scrollStep
      scrollDelay (0, 0) in
  (forall k fuel,
     (forall i, i < k -> heights (S i) <> heights i) ->
     heights (S k) = heights k ->
     k < fuel ->
     outcome (scroll fuel) = Ok tt
     /\ world (scroll fuel) = (k + 2, 0)
     /\ count isScroll (trace (scroll fuel)) = S k)
  /\ (forall fuel,
        (forall i, i < fuel -> heights (S i) <> heights i) ->
        outcome (scroll fuel) = Diverge
        /\ count isScroll (trace (scroll fuel)) = fuel)
  /\ ((forall i, (heights i < heights (S i))%Z) ->
      forall fuel,
        outcome (scroll fuel) = Diverge
        /\ count isScroll (trace (scroll fuel)) = fuel)
  /\ (forall maxRepeats verbose' fuel,
        0 < maxRepeats ->
        counts 0 <> 0%Z ->
        (forall i, counts (S i) <> counts i) ->
        outcome (scrollAndWaitForStability (E := streamEnv heights counts)
                   fuel page maxRepeats verbose' (0, 0))
        = Diverge).
Proof.
  intros scroll; subst scroll; cbv beta.
  assert (Hruns : forall fuel,
            (forall i, i < fuel -> heights (S i) <> heights i) ->
            outcome (scrollUntilNoChange (E := streamEnv heights counts) fuel
                       page scrollStep scrollDelay (0, 0)) = Diverge
            /\ count isScroll
                 (trace (scrollUntilNoChange (E := streamEnv heights counts)
                           fuel page scrollStep scrollDelay (0, 0))) = fuel).
  { intros fuel Hne; rewrite scrollUntilNoChange_stream.
    destruct (@scrollLoop_runs heights counts page scrollStep scrollDelay 0
                fuel 0 Hne) as [Ho Hc].
    cbn [after outcome trace]; split; [exact Ho|].
    rewrite count_app, Hc; reflexivity. }
  split; [|split; [exact Hruns|split]].
  - intros k fuel Hne Heq Hk; rewrite scrollUntilNoChange_stream.
    destruct (@scrollLoop_stops heights counts page scrollStep scrollDelay 0
                fuel k 0 Hk Hne Heq) as [Ho [Hw Hc]].
    cbn [after outcome world trace]; split; [exact Ho|].
    split; [rewrite Hw; f_equal; lia|].
    rewrite count_app, Hc; reflexivity.
  - intros Hgrow fuel; apply Hruns; intros i _.
    specialize (Hgrow i); lia.
  - intros maxRepeats verbose' fuel Hmax H0 Hc.
    unfold scrollAndWaitForStability; rewrite bind_outcome.
    now rewrite (@stability_never_settles heights counts page verbose'
                   maxRepeats fuel Hmax Hc fuel 0%Z (0, 0) H0).
Qed.


(** * The claims on simulated sites *)

Lemma extractFieldsFromCard_price_witness :
  querySelector (cardOf (Some "Cedar board"%string) (Some "$12"%string) None)
    ".acl-product-card__price-cents" = None
  /\ price (extractFieldsFromCard
              (cardOf (Some "Cedar board"%string) (Some "$12"%string) None))
     = str "$12.00".
Proof.
  split; [reflexivity|].
  exact (proj2 (proj2 (proj2 extractFieldsFromCard_price))
           (cardOf (Some "Cedar board"%string) (Some "$12"%string) None)
           eq_refl).
Defined.

(** On a site of 25 pages, each with an enabled "next" control, the page
    loop needs 20 turns whatever fuel it has, and on the 20th page it ends
    without a look at the control. *)
Lemma page_cap_witness :
  (20 <= 25
   /\ loop (E := siteEnv) 25 (scrapePage sampleArgv 10 0) ([], 0) (longSite 25)
      = loop (E := siteEnv) 20 (scrapePage sampleArgv 10 0) ([], 0)
          (longSite 25))
  /\ exists x,
       outcome (scrapePage (E := siteEnv) sampleArgv 10 0 ([], 19) (longSite 3))
       = Ok x
       /\ count isQueryNext
            (trace (scrapePage (E := siteEnv) sampleArgv 10 0 ([], 19)
                      (longSite 3))) = 0
       /\ exists cards,
            lastCards (trace (scrapePage (E := siteEnv) sampleArgv 10 0
                                ([], 19) (longSite 3))) = Some cards
            /\ x = Break ([] ++ map extractFieldsFromCard cards).
Proof.
  split.
  - split; [lia|].
    apply (proj1 (proj2 (page_cap (E := siteEnv) sampleArgv))); lia.
  - eexists; split; [vm_compute; reflexivity|].
    apply (proj2 (proj2 (page_cap (E := siteEnv) sampleArgv))).
    vm_compute; reflexivity.
Defined.

(** The run on that site returns the records of 20 pages. *)
Example long_site_capped :
  let r := scrapeAllProducts (E := siteEnv) sampleArgv 25 0 "" (longSite 25) in
  outcome r = Ok (map extractFieldsFromCard (cardsFrom 1 20))
  /\ count isScreenshot (trace r) = 20
  /\ count isQueryNext (trace r) = 19.
Proof. vm_compute; repeat split. Qed.


Example five_readings_state :
  let r := scrollAndWaitForStability (E := scriptEnv) 10 0 5 true
             [3; 3; 3; 3; 3]%Z in
  outcome r = Throw "no reading left"%string
  /\ world r = []
  /\ count isCountCards (trace r) = 6.
Proof. vm_compute; repeat split. Qed.




Example broken_page_accepted :
  let r := scrapeAllProducts (E := siteEnv) sampleArgv 10 0 "" brokenSite in
  outcome r
  = Ok [ {| productName := str "2x4 Stud"; price := str "$3.98" |};
         {| productName := str "Plywood sheet"; price := str "$0.00" |} ]
  /\ count isQueryCards (trace r) = 3.
Proof. vm_compute; repeat split. Qed.

(** With the browser out of reach the run ends with the empty result and
    the browser is never closed. *)
Lemma unreachable_browser_not_closed :
  let r := main (E := siteEnv) sampleArgv "user:pass" 10 unreachableSite in
  outcome r = Ok []
  /\ count isExit (trace r) = 1
  /\ ~ count isCloseBrowser (trace r) = 1.
Proof. vm_compute; repeat split; discriminate. Qed.

Example reachable_browser_closed_once :
  let r := main (E := siteEnv) sampleArgv "user:pass" 10 twoPageSite in
  outcome r = Ok (map extractFieldsFromCard (cardsFrom 1 34))
  /\ count isCloseBrowser (trace r) = 1
  /\ count isExit (trace r) = 1.
Proof. vm_compute; repeat split. Qed.

Lemma validation_governor_witness :
  exists st',
    outcome (retryAttempt (E := siteEnv) sampleArgv 10 0 1
               {| validDataFound := false; attempts := 0; productData := [] |}
               brokenSite) = Ok st'
    /\ validDataFound st' = negb (hasInvalidEntries (productData st')).
Proof.
  eexists; split; [vm_compute; reflexivity|].
  apply (proj1 (proj2 (validation_governor (E := siteEnv) sampleArgv))
           10 0 1
           {| validDataFound := false; attempts := 0; productData := [] |}
           brokenSite); [reflexivity|].
  vm_compute; reflexivity.
Defined.

Lemma scroll_loop_unbounded_witness :
  (forall i, (Z.of_nat i < Z.of_nat (S i))%Z)
  /\ outcome (scrollUntilNoChange (E := streamEnv Z.of_nat (fun _ => 0%Z))
                30 0 1000 500 (0, 0)) = Diverge
  /\ count isScroll
       (trace (scrollUntilNoChange (E := streamEnv Z.of_nat (fun _ => 0%Z))
                 30 0 1000 500 (0, 0))) = 30.
Proof.
  assert (H : forall i, (Z.of_nat i < Z.of_nat (S i))%Z) by (intros; lia).
  split; [exact H|].
  exact (proj1 (proj2 (proj2 (scroll_loop_unbounded Z.of_nat (fun _ => 0%Z) 0
                                1000 500))) H 30).
Defined.

(** A page whose height settles at the fourth measurement: four scrolls. *)
Example scroll_loop_stops_at_first_repeat :
  let r := scrollUntilNoChange
             (E := streamEnv (fun n => Z.of_nat (Nat.min n 3)) (fun _ => 0%Z))
             10 0 1000 500 (0, 0) in
  outcome r = Ok tt /\ world r = (5, 0) /\ count isScroll (trace r) = 4.
Proof. vm_compute; repeat split. Qed.

(** The two pages of the design document: 24 records, then 10. *)
Lemma result_order_witness :
  outcome (scrapeAllProducts (E := siteEnv) sampleArgv 10 0 "" twoPageSite)
  = Ok (map extractFieldsFromCard (cardsFrom 1 34))
  /\ map extractFieldsFromCard (cardsFrom 1 34)
     = List.concat
         (map (map extractFieldsFromCard)
            (pageSnapshots
               (trace (scrapeAllProducts (E := siteEnv) sampleArgv 10 0 ""
                         twoPageSite)))).
Proof.
  assert (H : outcome (scrapeAllProducts (E := siteEnv) sampleArgv 10 0 ""
                         twoPageSite)
              = Ok (map extractFieldsFromCard (cardsFrom 1 34)))
    by (vm_compute; reflexivity).
  split; [exact H|].
  exact (proj1 (result_order (E := siteEnv) sampleArgv 10 0 "" twoPageSite H)).
Defined.

Lemma empty_page_witness :
  2 <= 10
  /\ fst (answer (Env := siteEnv) (QueryCards 0) emptySite) = inr []
  /\ retryLoop (E := siteEnv) sampleArgv 10 0 1 emptySite
     = {| outcome := Ok [];
          world := snd (answer (Env := siteEnv) (QueryCards 0) emptySite);
          trace := [Did (QueryCards 0) (inr [])] |}.
Proof.
  assert (H2 : 2 <= 10) by lia.
  assert (Hq : fst (answer (Env := siteEnv) (QueryCards 0) emptySite) = inr [])
    by reflexivity.
  split; [exact H2|]; split; [exact Hq|].
  exact (proj1 (@empty_page siteEnv sampleArgv 10 0 1 emptySite H2 Hq)).
Defined.

Example no_cards_no_records :
  let r := scrapeAllProducts (E := siteEnv) sampleArgv 10 0 "" emptySite in
  outcome r = Ok [] /\ count isQueryCards (trace r) = 1.
Proof. vm_compute; repeat split. Qed.

(** A page whose price arrives for the second extraction: the first
    snapshot is dropped, the second one alone is returned. *)
Lemma one_snapshot_per_page_witness :
  exists data,
    outcome (retryLoop (E := siteEnv) sampleArgv 10 0 1 lateSite) = Ok data
    /\ data = [ {| productName := str "2x4 Stud"; price := str "$3.98" |} ]
    /\ exists cards,
         lastCards (trace (retryLoop (E := siteEnv) sampleArgv 10 0 1 lateSite))
         = Some cards
         /\ data = map extractFieldsFromCard cards.
Proof.
  eexists; split; [vm_compute; reflexivity|]; split; [reflexivity|].
  apply (proj1 (one_snapshot_per_page (E := siteEnv) sampleArgv) 10 0 1
           lateSite).
  vm_compute; reflexivity.
Defined.

(** * More of the worker

    ** Names, prices and rows *)

Lemma trimStart_spec s :
  exists ws, s = ws ++ trimStart s /\ allWhiteSpace ws
             /\ (trimStart s = []
                 \/ exists c rest, trimStart s = c :: rest
                                   /\ isWhiteSpace c = false).
Proof.
  induction s as [|c s [ws [Hs [Hws Hh]]]]; simpl.
  - exists []; repeat split; [constructor|now left].
  - destruct (isWhiteSpace c) eqn:Hc.
    + exists (c :: ws); simpl; rewrite <- Hs; repeat split; [|exact Hh].
      now constructor.
    + exists []; repeat split; [constructor|].
      right; now exists c, s.
Qed.

Lemma trimStart_fixed c s :
  isWhiteSpace c = false -> trimStart (c :: s) = c :: s.
Proof. intros H; simpl; now rewrite H. Qed.

Lemma trimEnd_spec s :
  exists ws, s = trimEnd s ++ ws /\ allWhiteSpace ws
             /\ (trimEnd s = []
                 \/ exists front c, trimEnd s = front ++ [c]
                                    /\ isWhiteSpace c = false).
Proof.
  unfold trimEnd; destruct (trimStart_spec (rev s)) as [ws [Hs [Hws Hh]]].
  exists (rev ws); split; [|split].
  - rewrite <- rev_app_distr, <- Hs; now rewrite rev_involutive.
  - apply Forall_rev, Hws.
  - destruct Hh as [->|[c [rest [-> Hc]]]]; [now left|right].
    exists (rev rest), c; now split.
Qed.

Lemma trimEnd_head c s :
  isWhiteSpace c = false -> exists rest, trimEnd (c :: s) = c :: rest.
Proof.
  intros Hc; unfold trimEnd; simpl rev.
  destruct (trimStart_spec (rev s ++ [c])) as [ws [Hs [Hws Hh]]].
  destruct Hh as [He|[x [rest [He Hx]]]].
  - rewrite He, app_nil_r in Hs.
    assert (Hin : In c ws) by (rewrite <- Hs; apply in_or_app; right; now left).
    unfold allWhiteSpace in Hws; rewrite Forall_forall in Hws.
    rewrite (Hws c Hin) in Hc; discriminate.
  - assert (Hr : rev (trimStart (rev s ++ [c])) ++ rev ws = c :: s).
    { rewrite <- rev_app_distr, <- Hs, rev_app_distr; simpl.
      now rewrite rev_involutive. }
    destruct (rev (trimStart (rev s ++ [c]))) as [|y t] eqn:Ht.
    + apply (f_equal (@rev N)) in Ht; rewrite rev_involutive in Ht.
      rewrite He in Ht; discriminate.
    + simpl in Hr; inversion Hr; subst y; now exists t.
Qed.

Lemma trim_trimmed s : trimmed (trim s).
Proof.
  unfold trim.
  destruct (trimStart_spec s) as [_ [_ [_ [He|[c [rest [He Hc]]]]]]];
    rewrite He; [now left|].
  destruct (@trimEnd_head c rest Hc) as [rest' Hr].
  destruct (trimEnd_spec (c :: rest)) as [_ [_ [_ [Hn|Hlast]]]].
  - rewrite Hr in Hn; discriminate.
  - right; split; [rewrite Hr; now exists c, rest'|exact Hlast].
Qed.

Lemma trimStart_blank s : allWhiteSpace s -> trimStart s = [].
Proof. induction 1 as [|c s Hc _ IH]; simpl; [reflexivity|now rewrite Hc]. Qed.

Lemma trim_blank s : allWhiteSpace s -> trim s = [].
Proof. intros H; unfold trim; now rewrite (trimStart_blank H). Qed.

Lemma trim_of_trimmed s : trimmed s -> trim s = s.
Proof.
  intros [->|[[c [rest [-> Hc]]] [front [x [Hx Hw]]]]]; [reflexivity|].
  unfold trim; rewrite (@trimStart_fixed c rest Hc), Hx.
  now apply trimEnd_last.
Qed.

Lemma trim_split s :
  exists front back,
    s = front ++ trim s ++ back /\ allWhiteSpace front /\ allWhiteSpace back.
Proof.
  destruct (trimStart_spec s) as [front [Hs [Hfront _]]].
  destruct (trimEnd_spec (trimStart s)) as [back [Ht [Hback _]]].
  exists front, back; unfold trim; rewrite <- Ht; auto.
Qed.

(** X1. The name of a record is the text of the card's title without the
    white space at its two ends: the text of the title, empty when the
    card has no title, is white space, then the name, then white space,
    and the name neither starts nor ends with white space.  Trimming a
    trimmed string changes nothing.  A card whose title is missing or
    holds white space only gets the empty name, and its record is invalid
    whatever its price is. *)
Theorem productName_trimmed :
  (forall card,
     let title :=
       match querySelector card ".acl-product-card__title--product-name" with
       | Some el => textContent el
       | None => []
       end in
     exists front back,
       title = front ++ productName (extractFieldsFromCard card) ++ back
       /\ allWhiteSpace front /\ allWhiteSpace back
       /\ trimmed (productName (extractFieldsFromCard card)))
  /\ (forall s, trim (trim s) = trim s)
  /\ (forall card,
        match querySelector card ".acl-product-card__title--product-name" with
        | Some el => allWhiteSpace (textContent el)
        | None => True
        end ->
        productName (extractFieldsFromCard card) = []
        /\ isInvalidEntry (extractFieldsFromCard card) = true).
Proof.
  split; [|split].
  - intros card; unfold extractFieldsFromCard, getText; simpl productName.
    destruct (querySelector card _) as [el|]; cbv zeta.
    + destruct (trim_split (textContent el)) as [front [back [Hs [Hf Hb]]]].
      exists front, back; split; [exact Hs|].
      split; [exact Hf|]; split; [exact Hb|apply trim_trimmed].
    + exists [], []; split; [reflexivity|].
      split; [constructor|]; split; [constructor|now left].
  - intros s; apply trim_of_trimmed, trim_trimmed.
  - intros card H.
    assert (Hn : productName (extractFieldsFromCard card) = []).
    { unfold extractFieldsFromCard, getText; simpl productName.
      destruct (querySelector card _); [now apply trim_blank|reflexivity]. }
    split; [exact Hn|]; apply isInvalidEntry_iff; now left.
Qed.

Lemma productName_trimmed_witness :
  allWhiteSpace (str "  ")
  /\ isInvalidEntry
       (extractFieldsFromCard
          (cardOf (Some "  "%string) (Some "$3"%string) (Some "98"%string)))
     = true.
Proof.
  assert (H : allWhiteSpace (str "  ")) by (repeat constructor).
  split; [exact H|].
  exact (proj2 (proj2 (proj2 productName_trimmed)
                  (cardOf (Some "  "%string) (Some "$3"%string)
                     (Some "98"%string)) H)).
Defined.

(** X2. Whatever the card holds, the price of its record is a dollar
    sign, a run of digits that is not empty, a dot, and a run of digits
    that is not empty. *)
Theorem price_format card :
  exists dollars cents,
    price (extractFieldsFromCard card) = str "$" ++ dollars ++ str "." ++ cents
    /\ dollars <> [] /\ cents <> []
    /\ Forall (fun c => isDigit c = true) dollars
    /\ Forall (fun c => isDigit c = true) cents.
Proof.
  rewrite price_composed.
  destruct (@orElse_digits
              (getText card ".acl-product-card__price-dollars") (str "0"))
    as [Hd1 Hd2]; [discriminate|repeat constructor|].
  destruct (@orElse_digits
              (getText card ".acl-product-card__price-cents") (str "00"))
    as [Hc1 Hc2]; [discriminate|repeat constructor|].
  eexists _, _; split; [reflexivity|]; auto.
Qed.

Lemma replaceCommas_length s : List.length (replaceCommas s) = List.length s.
Proof. apply length_map. Qed.

Lemma replaceCommas_none s : commas (replaceCommas s) = 0.
Proof.
  unfold commas, replaceCommas; induction s as [|c s IH]; simpl; [reflexivity|].
  destruct (N.eqb_spec c 44).
  - destruct (N.eq_dec 32 44); [discriminate|exact IH].
  - destruct (N.eq_dec c 44); [contradiction|exact IH].
Qed.

Lemma replaceCommas_id s : commas s = 0 -> replaceCommas s = s.
Proof.
  unfold commas, replaceCommas; induction s as [|c s IH]; simpl; [reflexivity|].
  destruct (N.eq_dec c 44); [discriminate|].
  intros H; rewrite (IH H).
  destruct (N.eqb_spec c 44); [contradiction|reflexivity].
Qed.

Lemma commas_app a b : commas (a ++ b) = commas a + commas b.
Proof. apply count_occ_app. Qed.

Lemma digits_no_comma s :
  Forall (fun c => isDigit c = true) s -> commas s = 0.
Proof.
  unfold commas; induction 1 as [|c s Hc _ IH]; simpl; [reflexivity|].
  destruct (N.eq_dec c 44); [subst c; discriminate|exact IH].
Qed.

(** X3. A price built by [extractFieldsFromCard] holds no comma, so the
    replacement of commas in [writeToCSV] leaves it as it is: in the row
    of such a record only the name can be changed. *)
Theorem price_survives_csv card :
  replaceCommas (price (extractFieldsFromCard card))
  = price (extractFieldsFromCard card)
  /\ csvRow (extractFieldsFromCard card)
     = replaceCommas (productName (extractFieldsFromCard card)) ++ str ","
       ++ price (extractFieldsFromCard card) ++ [10%N].
Proof.
  assert (H : replaceCommas (price (extractFieldsFromCard card))
              = price (extractFieldsFromCard card)).
  { apply replaceCommas_id.
    rewrite price_composed, !commas_app.
    destruct (@orElse_digits
                (getText card ".acl-product-card__price-dollars") (str "0"))
      as [_ Hd]; [discriminate|repeat constructor|].
    destruct (@orElse_digits
                (getText card ".acl-product-card__price-cents") (str "00"))
      as [_ Hc]; [discriminate|repeat constructor|].
    rewrite (digits_no_comma Hd), (digits_no_comma Hc); reflexivity. }
  split; [exact H|]; unfold csvRow; now rewrite H.
Qed.

Lemma csvRow_commas item : commas (csvRow item) = 1.
Proof.
  unfold csvRow; rewrite !commas_app, !replaceCommas_none; reflexivity.
Qed.

Lemma fold_rows data : forall acc,
  fold_left (fun csv item => csv ++ csvRow item) data acc
  = acc ++ List.concat (map csvRow data).
Proof.
  induction data as [|item data IH]; intros acc; simpl.
  - now rewrite app_nil_r.
  - now rewrite IH, app_assoc.
Qed.

Lemma rows_commas data :
  commas (List.concat (map csvRow data)) = List.length data.
Proof.
  induction data as [|item data IH]; simpl; [reflexivity|].
  now rewrite commas_app, csvRow_commas, IH.
Qed.

Lemma prefix_append s1 s2 :
  prefix s1 s2 = true <-> exists post, s2 = (s1 ++ post)%string.
Proof.
  revert s2; induction s1 as [|a s1 IH]; intros s2; simpl.
  - split; [intros _; now exists s2|intros _; now destruct s2].
  - destruct s2 as [|b s2]; [split; [discriminate|intros [p Hp]; discriminate]|].
    simpl; destruct (ascii_dec a b) as [Hab|Hab].
    + subst b; rewrite IH; split; intros [p Hp]; exists p; [now rewrite Hp|].
      now inversion Hp.
    + split; [discriminate|intros [p Hp]; inversion Hp; congruence].
Qed.

Lemma index_cons sub c s :
  String.index 0 sub (String c s)
  = if prefix sub (String c s) then Some 0
    else match String.index 0 sub s with
         | Some n => Some (S n)
         | None => None
         end.
Proof. reflexivity. Qed.

Lemma index_append sub s :
  (exists n, String.index 0 sub s = Some n)
  <-> exists pre post, s = (pre ++ sub ++ post)%string.
Proof.
  induction s as [|c s IH]; [simpl|rewrite index_cons].
  - destruct sub as [|a sub]; split.
    + intros _; now exists ""%string, ""%string.
    + intros _; now exists 0.
    + intros [n Hn]; discriminate.
    + intros [[|x pre] [post H]]; simpl in H; discriminate.
  - destruct (prefix sub (String c s)) eqn:Hp.
    + split; [intros _|intros _; now exists 0].
      apply prefix_append in Hp; destruct Hp as [post Hp].
      exists ""%string, post; exact Hp.
    + split.
      * intros [n Hn].
        destruct (String.index 0 sub s) as [m|] eqn:Hi; [|discriminate].
        destruct (proj1 IH (ex_intro _ m eq_refl)) as [pre [post H]].
        exists (String c pre), post; simpl; now rewrite H.
      * intros [[|x pre] [post H]]; simpl in H.
        -- assert (Hp' : prefix sub (String c s) = true)
             by (apply prefix_append; now exists post).
           rewrite Hp' in Hp; discriminate.
        -- inversion H; subst x.
           destruct (proj2 IH (ex_intro _ pre (ex_intro _ post H2)))
             as [m Hm].
           rewrite <- H2, Hm; now exists (S m).
Qed.

(** X4. The test [writeToCSV] decides on sorting with,
    [outPath.includes(sub)], holds exactly when [sub] occurs somewhere in
    the path. *)
Theorem includes_substring s sub :
  includes s sub = true <-> exists pre post, s = (pre ++ sub ++ post)%string.
Proof.
  rewrite <- index_append; unfold includes.
  destruct (String.index 0 sub s) as [n|]; split; auto.
  - intros _; now exists n.
  - discriminate.
  - intros [n Hn]; discriminate.
Qed.

Lemma includes_substring_witness :
  includes "CSVs/Unsorted/SPF_2025-01-01.csv" "SPF_" = true.
Proof.
  apply (proj2 (includes_substring "CSVs/Unsorted/SPF_2025-01-01.csv" "SPF_")).
  exists "CSVs/Unsorted/"%string, "2025-01-01.csv"%string; reflexivity.
Defined.

(** ** The stability detector in any world *)

Lemma readings_app V (f : Event -> option V) d1 d2 :
  readings f (d1 ++ d2) = readings f d1 ++ readings f d2.
Proof.
  induction d1 as [|e d1 IH]; simpl; [reflexivity|].
  destruct (f e); simpl; now rewrite IH.
Qed.

Lemma readings_none V (f : Event -> option V) (p : Event -> bool) d :
  (forall e, p e = true -> f e = None) ->
  Forall (fun e => p e = true) d -> readings f d = [].
Proof.
  intros Hp; induction 1 as [|e d He _ IH]; simpl; [reflexivity|].
  now rewrite (Hp e He).
Qed.

Lemma last_cons (h : Z) mid : forall d, last (h :: mid) d = last mid h.
Proof.
  revert h; induction mid as [|y mid IH]; intros h d; [reflexivity|].
  change (last (h :: y :: mid) d) with (last (y :: mid) d).
  now rewrite !IH.
Qed.

Section Generic.
Context {E : Env}.

Lemma scrollOnce_ok page scrollStep scrollDelay previousHeight w x :
  outcome (scrollOnce page scrollStep scrollDelay previousHeight w) = Ok x ->
  exists h,
    readings heightOf
      (trace (scrollOnce page scrollStep scrollDelay previousHeight w)) = [h]
    /\ count isScroll
         (trace (scrollOnce page scrollStep scrollDelay previousHeight w)) = 1
    /\ x = if (h =? previousHeight)%Z then Break tt else Continue h.
Proof.
  unfold scrollOnce; rewrite bind_perform.
  destruct (answer (EvalScrollBy page scrollStep) w) as [[e|[]] w1];
    cbn [fst snd]; [discriminate|].
  rewrite bind_delay, bind_perform.
  destruct (answer (EvalScrollHeight page) (elapse scrollDelay w1))
    as [[e|h] w2]; cbn [fst snd]; [discriminate|].
  cbn [after outcome trace]; intros H; exists h.
  split; [|split]; [now destruct (h =? previousHeight)%Z ..|].
  destruct (h =? previousHeight)%Z; now inversion H.
Qed.

Lemma scrollLoop_ok page scrollStep scrollDelay : forall fuel previous w,
  let r := loop fuel (scrollOnce page scrollStep scrollDelay) previous w in
  outcome r = Ok tt ->
  exists mid,
    readings heightOf (trace r) = mid ++ [last mid previous]
    /\ changing previous mid
    /\ count isScroll (trace r) = S (List.length mid).
Proof.
  induction fuel as [|fuel IH]; intros previous w r; subst r;
    [discriminate|].
  cbn [loop]; intros H.
  apply bind_ok_inv in H; destruct H as [x [Hx [H [Ht _]]]].
  rewrite Ht; clear Ht.
  pose proof (scrollOnce_ok _ _ _ _ _ Hx) as Hs.
  destruct Hs as [h' [Hh [Hc Hxe]]]; subst x.
  rewrite readings_app, count_app, Hh, Hc.
  destruct (Z.eqb_spec h' previous) as [Heq|Hne].
  - subst h'; exists []; cbn; repeat split.
  - destruct (IH h' _ H) as [mid [Hm [Hch Hn]]].
    exists (h' :: mid); rewrite Hm, Hn; split; [|split].
    + now rewrite last_cons.
    + now split.
    + reflexivity.
Qed.

(** X5. Whatever the page answers, when [scrollUntilNoChange] returns the
    heights it has read are a first one, then heights that each differ
    from the one read before, then once more the last of them; and it has
    scrolled once for every height read after the first. *)
Theorem scrollUntilNoChange_heights fuel page scrollStep scrollDelay w :
  let r := scrollUntilNoChange fuel page scrollStep scrollDelay w in
  outcome r = Ok tt ->
  exists first mid,
    readings heightOf (trace r) = first :: mid ++ [last mid first]
    /\ changing first mid
    /\ count isScroll (trace r) = S (List.length mid).
Proof.
  unfold scrollUntilNoChange; rewrite bind_perform.
  destruct (answer (EvalScrollHeight page) w) as [[e|first] w1];
    cbn [fst snd]; [discriminate|].
  cbn [after outcome trace]; intros H.
  destruct (scrollLoop_ok _ _ _ _ _ _ H) as [mid [Hm [Hch Hc]]].
  exists first, mid; rewrite readings_app, count_app, Hm, Hc.
  now repeat split.
Qed.

Lemma scrollUntilNoChange_notCount fuel page scrollStep scrollDelay :
  only notCountCards (scrollUntilNoChange fuel page scrollStep scrollDelay).
Proof. unfold scrollUntilNoChange, scrollOnce; auto 20 with only. Qed.

Lemma notCountCards_countOf e : notCountCards e = true -> countOf e = None.
Proof.
  destruct e as [T c r| | |]; try reflexivity; destruct c; try reflexivity.
  discriminate.
Qed.

Lemma stabilityCheck_ok fuel page verbose' st w st' :
  outcome (stabilityCheck fuel page verbose' st w) = Ok st' ->
  exists c,
    readings countOf (trace (stabilityCheck fuel page verbose' st w)) = [c]
    /\ st' = nextState st c.
Proof.
  unfold stabilityCheck; intros H.
  apply bind_ok_inv in H; destruct H as [[] [Hs [H [Ht _]]]].
  rewrite Ht; clear Ht.
  rewrite readings_app,
    (@readings_none _ _ _ _ notCountCards_countOf
       (scrollUntilNoChange_notCount fuel page 1000 500 w)).
  set (w1 := world (scrollUntilNoChange fuel page 1000 500 w)) in *.
  rewrite bind_delay, bind_perform in H |- *.
  destruct (answer (CountCards page) (elapse 2000 w1)) as [[e|c] w2];
    cbn [fst snd] in H |- *; [discriminate|].
  rewrite bind_when_log in H |- *; cbn [after outcome trace] in H |- *.
  exists c; split.
  - unfold nextState; destruct verbose', (c =? lastCount st)%Z; reflexivity.
  - unfold nextState; destruct (c =? lastCount st)%Z; now inversion H.
Qed.

(** X6. Whatever the page answers, when [scrollAndWaitForStability]
    returns, either every count it has read is 0 and there are
    [maxRepeats] of them, or the counts read end with [maxRepeats + 1]
    equal ones; the count it reports when verbose is that last count. *)
Theorem stability_last_counts fuel page maxRepeats verbose' w :
  let r := scrollAndWaitForStability fuel page maxRepeats verbose' w in
  outcome r = Ok tt ->
  exists c,
    ((readings countOf (trace r) = repeat 0%Z maxRepeats /\ c = 0%Z)
     \/ exists earlier,
          readings countOf (trace r) = earlier ++ repeat c (S maxRepeats))
    /\ (verbose' = true -> loggedFinalCount (trace r) = Some c).
Proof.
  unfold scrollAndWaitForStability; intros H.
  apply bind_ok_inv in H; destruct H as [st [Hw [H [Ht _]]]].
  rewrite Ht; clear Ht.
  set (I := fun (st : StabilityState) (d : Trace) =>
         stableCountRepeats st <= maxRepeats
         /\ ((readings countOf d = repeat 0%Z (stableCountRepeats st)
              /\ lastCount st = 0%Z)
             \/ exists earlier,
                  readings countOf d
                  = earlier
                    ++ repeat (lastCount st) (S (stableCountRepeats st)))).
  assert (Hbody : forall s d w0 s', I s d ->
            (stableCountRepeats s <? maxRepeats) = true ->
            outcome (stabilityCheck fuel page verbose' s w0) = Ok s' ->
            I s' (d ++ trace (stabilityCheck fuel page verbose' s w0))).
  { intros s d w0 s' [_ HI] Hlt Hs; apply Nat.ltb_lt in Hlt.
    destruct (stabilityCheck_ok _ _ _ _ _ Hs) as [c [Hc ->]].
    unfold I, nextState; rewrite readings_app, Hc.
    destruct (Z.eqb_spec c (lastCount s)) as [Heq|Hne];
      cbn [stableCountRepeats lastCount].
    - split; [exact Hlt|].
      subst c; destruct HI as [[Hd Hl]|[earlier Hd]]; rewrite Hd.
      + left; split; [|exact Hl].
        rewrite Hl; change [0%Z] with (repeat 0%Z 1).
        rewrite <- repeat_app; f_equal; lia.
      + right; exists earlier; rewrite <- app_assoc; f_equal.
        change [lastCount s] with (repeat (lastCount s) 1).
        rewrite <- repeat_app; f_equal; lia.
    - split; [apply Nat.le_0_l|].
      right; exists (readings countOf d); reflexivity. }
  assert (H0 : I {| stableCountRepeats := 0; lastCount := 0 |} [])
    by (split; [apply Nat.le_0_l|left; now split]).
  destruct (while_ends I _ _ Hbody fuel _ [] w H0 Hw) as [[Hle HI] Hc].
  cbn [app] in HI; apply Nat.ltb_ge in Hc.
  assert (Hn : stableCountRepeats st = maxRepeats) by lia.
  set (dw := trace (while fuel _ _ _ w)) in *.
  assert (Hlog : readings countOf
                   (trace (when verbose'
                             (log (Info "Final stable product card count"
                                     [lastCount st]))
                             (world (while fuel
                                       (fun st0 => stableCountRepeats st0
                                                   <? maxRepeats)
                                       (stabilityCheck fuel page verbose')
                                       {| stableCountRepeats := 0;
                                          lastCount := 0 |} w)))) = []).
  { rewrite when_log_run; now destruct verbose'. }
  rewrite readings_app, Hlog, app_nil_r.
  exists (lastCount st); split.
  - rewrite <- Hn; destruct HI as [[Hd Hl]|[earlier Hd]]; rewrite Hd.
    + left; now split.
    + right; now exists earlier.
  - intros ->; apply loggedFinalCount_last.
Qed.

(** X7. The stability detector only scrolls, measures the height, counts
    the cards, waits and prints: it takes no screenshot, extracts nothing,
    and neither navigates nor clicks. *)
Theorem stability_detector_events fuel page maxRepeats verbose' :
  only isDetectorEvent (scrollAndWaitForStability fuel page maxRepeats verbose').
Proof.
  unfold scrollAndWaitForStability, stabilityCheck, scrollUntilNoChange,
    scrollOnce; auto 30 with only.
Qed.

End Generic.

(** A page whose height grows twice and then stays: the heights read are
    0, 1, 2, 2, after three scrolls. *)
Lemma scrollUntilNoChange_heights_witness :
  let r := scrollUntilNoChange
             (E := streamEnv (fun i => Z.of_nat (Nat.min i 2)) (fun _ => 0%Z))
             10 0 1000 500 (0, 0) in
  outcome r = Ok tt
  /\ exists first mid,
       readings heightOf (trace r) = first :: mid ++ [last mid first]
       /\ changing first mid
       /\ count isScroll (trace r) = S (List.length mid).
Proof.
  assert (H : outcome (scrollUntilNoChange
                         (E := streamEnv (fun i => Z.of_nat (Nat.min i 2))
                                 (fun _ => 0%Z))
                         10 0 1000 500 (0, 0)) = Ok tt)
    by (vm_compute; reflexivity).
  split; [exact H|].
  exact (@scrollUntilNoChange_heights
           (streamEnv (fun i => Z.of_nat (Nat.min i 2)) (fun _ => 0%Z))
           10 0 1000 500 (0, 0) H).
Defined.

(** Counts 3, 4, 4, 4: with two repeats asked for, the detector stops
    after the third 4. *)
Lemma stability_last_counts_witness :
  let r := scrollAndWaitForStability (E := scriptEnv) 10 0 2 true
             [3; 4; 4; 4; 9]%Z in
  outcome r = Ok tt
  /\ exists c,
       ((readings countOf (trace r) = repeat 0%Z 2 /\ c = 0%Z)
        \/ exists earlier,
             readings countOf (trace r) = earlier ++ repeat c 3)
       /\ (true = true -> loggedFinalCount (trace r) = Some c).
Proof.
  assert (H : outcome (scrollAndWaitForStability (E := scriptEnv) 10 0 2 true
                         [3; 4; 4; 4; 9]%Z) = Ok tt)
    by (vm_compute; reflexivity).
  split; [exact H|].
  exact (@stability_last_counts scriptEnv 10 0 2 true [3; 4; 4; 4; 9]%Z H).
Defined.

(** ** The CSV file, the screenshots and the first navigation *)

Lemma unlogged_app d1 d2 : unlogged (d1 ++ d2) = unlogged d1 ++ unlogged d2.
Proof. apply filter_app. Qed.

Section Csv.
Context {E : Env}.
Variable argv : Argv.

Lemma csvText_fold data :
  fold_left (fun csv item => csv ++ csvRow item) data
    (str "product_name,price" ++ [10%N])
  = csvText data.
Proof. rewrite fold_rows; unfold csvText; now rewrite <- app_assoc. Qed.

(** X8. [writeToCSV] first writes the whole text to [outPath].  When the
    write throws, the error is thrown on and no sorting is started.  When
    it succeeds, sortProducts.py is started on [outPath] exactly when the
    path includes "PT_" or "SPF_", and nothing else is done but printing. *)
Theorem writeToCSV_effects data outPath w :
  let r := writeToCSV argv data outPath w in
  let written := answer (WriteFile outPath (csvText data)) w in
  let sorts := includes outPath "PT_" || includes outPath "SPF_" in
  let sorted := answer (ExecPython "sortProducts.py" outPath) (snd written) in
  match fst written with
  | inl e =>
      outcome r = Throw e
      /\ unlogged (trace r) = [Did (WriteFile outPath (csvText data)) (inl e)]
  | inr _ =>
      if sorts then
        outcome r = match fst sorted with
                    | inl e => Throw e
                    | inr _ => Ok tt
                    end
        /\ unlogged (trace r)
           = [Did (WriteFile outPath (csvText data)) (inr tt);
              Did (ExecPython "sortProducts.py" outPath) (fst sorted)]
      else
        outcome r = Ok tt
        /\ unlogged (trace r)
           = [Did (WriteFile outPath (csvText data)) (inr tt)]
  end.
Proof.
  unfold writeToCSV; cbv zeta; rewrite csvText_fold, bind_perform.
  destruct (answer (WriteFile outPath (csvText data)) w) as [[e|[]] w1];
    cbn [fst snd]; [now split|].
  rewrite bind_when_log.
  destruct (includes outPath "PT_" || includes outPath "SPF_").
  - rewrite bind_when_log, perform_run.
    destruct (answer (ExecPython "sortProducts.py" outPath) w1)
      as [[e|[]] w2]; cbn [fst snd after outcome trace];
      destruct (verbose argv); split; reflexivity.
  - rewrite when_log_run; cbn [after outcome trace].
    destruct (verbose argv); split; reflexivity.
Qed.

Lemma lineFeeds_app a b : lineFeeds (a ++ b) = lineFeeds a + lineFeeds b.
Proof. apply count_occ_app. Qed.

Lemma replaceCommas_lineFeeds s : lineFeeds (replaceCommas s) = lineFeeds s.
Proof.
  unfold lineFeeds, replaceCommas; induction s as [|c s IH]; simpl;
    [reflexivity|].
  destruct (N.eqb_spec c 44) as [->|Hc].
  - destruct (N.eq_dec 32 10), (N.eq_dec 44 10); try discriminate; exact IH.
  - destruct (N.eq_dec c 10); now rewrite IH.
Qed.

Lemma csvRow_lineFeeds item :
  lineFeeds (csvRow item)
  = S (lineFeeds (productName item) + lineFeeds (price item)).
Proof.
  unfold csvRow; rewrite !lineFeeds_app, !replaceCommas_lineFeeds.
  change (lineFeeds (str ",")) with 0; change (lineFeeds [10%N]) with 1; lia.
Qed.

Lemma rows_lineFeeds data :
  lineFeeds (List.concat (map csvRow data))
  = List.length data
    + list_sum (map (fun item => lineFeeds (productName item)
                                 + lineFeeds (price item)) data).
Proof.
  induction data as [|item data IH]; simpl; [reflexivity|].
  rewrite lineFeeds_app, csvRow_lineFeeds, IH; lia.
Qed.

(** X9. The text of the CSV file is the header line followed by the rows
    of the records in their order: the text for [data1 ++ data2] is the
    text for [data1] followed by the rows of [data2].  It holds one comma
    for the header and one for each record, whatever the names and prices
    are, the commas in them being replaced.  Line feeds are not replaced:
    the text holds one line feed for the header, one for each record, and
    every line feed of the names and prices, so a record is one line of
    the file only when its name and price hold no line feed.  For no
    record at all the text is the 19 characters of the header line. *)
Theorem csvText_shape data1 data2 :
  csvText (data1 ++ data2)
  = csvText data1 ++ List.concat (map csvRow data2)
  /\ commas (csvText (data1 ++ data2))
     = S (List.length data1 + List.length data2)
  /\ List.length (csvText []) = 19
  /\ lineFeeds (csvText data1)
     = S (List.length data1
          + list_sum (map (fun item => lineFeeds (productName item)
                                       + lineFeeds (price item)) data1)).
Proof.
  unfold csvText; split; [|split; [|split; [reflexivity|]]].
  - rewrite map_app, concat_app; now rewrite <- !app_assoc.
  - rewrite !commas_app, rows_commas, length_app; reflexivity.
  - rewrite !lineFeeds_app, rows_lineFeeds; reflexivity.
Qed.

End Csv.

Section Shots.
Context {E : Env}.
Variable argv : Argv.

Lemma shotOf_none e : notScreenshot e = true -> shotOf e = None.
Proof.
  destruct e as [T c r| | |]; try reflexivity; destruct c; try reflexivity.
  discriminate.
Qed.

Lemma shotOf_plain e : isPlain e = true -> shotOf e = None.
Proof. intros H; apply shotOf_none, plain_notScreenshot, H. Qed.

Lemma scrapeLoop_shots fuel inner page : forall all pc w,
  let r := loop fuel (scrapePage argv inner page) (all, pc) w in
  exists n,
    readings shotOf (trace r) = seq (S pc) n
    /\ (forall res, outcome r = Ok res -> 1 <= n).
Proof.
  induction fuel as [|fuel IH]; intros all pc w r; subst r.
  { exists 0; split; [reflexivity|discriminate]. }
  cbn [loop]; rewrite bind_trace, bind_outcome.
  destruct (scrapePage_shape argv inner page all pc w)
    as [A [B [Ht [HA HB]]]].
  rewrite Ht; clear Ht.
  set (w1 := world (scrapePage argv inner page (all, pc) w)).
  rewrite !readings_app, (@readings_none _ _ _ _ shotOf_plain HA).
  destruct HB as [[-> Hno]|[q [B' [-> [HB' Hok]]]]].
  - exists 0.
    destruct (outcome (scrapePage argv inner page (all, pc) w)) as [x| |];
      [now elim (Hno x)| |]; split; (reflexivity || discriminate).
  - change (Did (Screenshot page (S pc)) q :: B')
      with ([Did (Screenshot page (S pc)) q] ++ B').
    rewrite readings_app, (@readings_none _ _ _ _ shotOf_none HB').
    cbn [readings shotOf app].
    destruct (outcome (scrapePage argv inner page (all, pc) w)) as [x| |].
    2,3: exists 1; split; [reflexivity|discriminate].
    destruct (Hok x eq_refl) as [_ [Hx _]].
    destruct x as [[a pc']|a].
    + cbn [snd] in Hx; destruct Hx as [-> _].
      destruct (IH a (S pc) w1) as [n [Hn _]].
      exists (S n); rewrite Hn; split; [reflexivity|intros; lia].
    + exists 1; split; [reflexivity|intros; lia].
Qed.

(** X10. The screenshots of a run are numbered 1, 2, ..., n in the order
    they are taken, with n at most 20, and a run that returns has taken
    at least one. *)
Theorem screenshots_numbered fuel page initialUrl w :
  let r := scrapeAllProducts argv fuel page initialUrl w in
  exists n,
    readings shotOf (trace r) = seq 1 n
    /\ n <= 20
    /\ (forall res, outcome r = Ok res -> 1 <= n).
Proof.
  intros r.
  assert (Hle : count isScreenshot (trace r) <= 20)
    by apply (scrapeAllProducts_trace argv fuel page initialUrl w).
  assert (Hlen : forall d,
            List.length (readings shotOf d) = count isScreenshot d).
  { induction d as [|e d IH]; [reflexivity|].
    unfold count in *; simpl.
    destruct e as [T c q| | |]; try exact IH; destruct c; try exact IH.
    simpl; now rewrite IH. }
  assert (H : exists n, readings shotOf (trace r) = seq 1 n
                        /\ (forall res, outcome r = Ok res -> 1 <= n)).
  { subst r; unfold scrapeAllProducts.
    rewrite bind_log, bind_perform.
    destruct (answer (Goto page initialUrl (Some "networkidle2"%string)) w)
      as [[e|[]] w1]; cbn [fst snd].
    { exists 0; split; [reflexivity|discriminate]. }
    rewrite bind_when_log, bind_delay, !after_after.
    cbn [after trace outcome]; rewrite bind_trace, bind_outcome.
    destruct (scrapeLoop_shots fuel fuel page [] 0 (elapse 5000 w1))
      as [n [Hn Hok]].
    exists n; rewrite !readings_app, Hn.
    assert (HP : readings shotOf
                   (if verbose argv
                    then [Logged
                            (Info
                               "Page loaded. Waiting 5 seconds for initial content..."
                               [])]
                    else []) = [])
      by (destruct (verbose argv); reflexivity).
    rewrite HP; cbn [readings shotOf app].
    match goal with
    | |- _ ++ readings shotOf ?Q = _ /\ _ =>
        assert (HQ : readings shotOf Q = [])
    end.
    { destruct (outcome (loop fuel _ _ _)); reflexivity. }
    rewrite HQ, app_nil_r; split; [reflexivity|].
    intros res Hres.
    destruct (outcome (loop fuel _ _ _)) as [a| |] eqn:Hl; try discriminate.
    exact (Hok a eq_refl). }
  destruct H as [n [Hn Hok]]; exists n; split; [exact Hn|split; [|exact Hok]].
  rewrite <- Hlen, Hn, length_seq in Hle; exact Hle.
Qed.

(** X11. When the navigation to the initial URL throws,
    [scrapeAllProducts] throws the same error and has done nothing else
    but print: no wait, no scroll, no screenshot, no extraction. *)
Theorem navigation_failure fuel page initialUrl w e :
  fst (answer (Goto page initialUrl (Some "networkidle2"%string)) w) = inl e ->
  let r := scrapeAllProducts argv fuel page initialUrl w in
  outcome r = Throw e
  /\ unlogged (trace r)
     = [Did (Goto page initialUrl (Some "networkidle2"%string)) (inl e)].
Proof.
  intros H; unfold scrapeAllProducts; rewrite bind_log, bind_perform, H.
  now split.
Qed.

End Shots.

(** Two pages, two screenshots, numbered 1 and 2. *)
Lemma screenshots_numbered_witness :
  let r := scrapeAllProducts (E := siteEnv) sampleArgv 10 0 "" twoPageSite in
  outcome r = Ok (map extractFieldsFromCard (cardsFrom 1 34))
  /\ exists n, readings shotOf (trace r) = seq 1 n /\ n <= 20 /\ 1 <= n.
Proof.
  assert (H : outcome (scrapeAllProducts (E := siteEnv) sampleArgv 10 0 ""
                         twoPageSite)
              = Ok (map extractFieldsFromCard (cardsFrom 1 34)))
    by (vm_compute; reflexivity).
  split; [exact H|].
  destruct (@screenshots_numbered siteEnv sampleArgv 10 0 "" twoPageSite)
    as [n [Hn [Hle Hok]]].
  exists n; split; [exact Hn|]; split; [exact Hle|exact (Hok _ H)].
Defined.

(** A world in which every [goto] fails. *)
Lemma navigation_failure_witness :
  let r := scrapeAllProducts (E := failingEnv isGoto) sampleArgv 10 0
             "https://www.homedepot.ca/plywood.html" tt in
  outcome r = Throw "failed"%string
  /\ unlogged (trace r)
     = [Did (Goto 0 "https://www.homedepot.ca/plywood.html"
               (Some "networkidle2"%string)) (inl "failed"%string)].
Proof.
  exact (@navigation_failure (failingEnv isGoto) sampleArgv 10 0
           "https://www.homedepot.ca/plywood.html" tt "failed"%string eq_refl).
Defined.

(** ** What the verbose flag changes *)

Section SameButLogs.
Context {E : Env}.

Lemma sameButLogs_refl A (c : M A) : sameButLogs c c.
Proof. intros w; auto. Qed.

Lemma sameButLogs_bind A B (c1 c2 : M A) (f1 f2 : A -> M B) :
  sameButLogs c1 c2 -> (forall a, sameButLogs (f1 a) (f2 a)) ->
  sameButLogs (bind c1 f1) (bind c2 f2).
Proof.
  intros Hc Hf w; destruct (Hc w) as [Ho [Hw Ht]].
  rewrite !bind_outcome, !bind_trace, !unlogged_app, Ht, <- Ho.
  unfold bind; rewrite <- Ho.
  destruct (outcome (c1 w)) as [a| |]; cbn [world]; auto.
  rewrite <- Hw; destruct (Hf a (world (c1 w))) as [Ho' [Hw' Ht']].
  now rewrite Ho', Hw', Ht'.
Qed.

Lemma printsOnly_log m : printsOnly (log m).
Proof. intros w; auto. Qed.

Lemma printsOnly_ret : printsOnly (ret tt).
Proof. intros w; auto. Qed.

Lemma printsOnly_when b c : printsOnly c -> printsOnly (when b c).
Proof. destruct b; [auto|intros _; apply printsOnly_ret]. Qed.

Lemma printsOnly_seq c1 c2 :
  printsOnly c1 -> printsOnly c2 -> printsOnly (c1;; c2).
Proof.
  intros H1 H2 w; destruct (H1 w) as [Ho [Hw Ht]].
  rewrite bind_outcome, bind_trace, unlogged_app, Ht.
  unfold bind; rewrite Ho; cbn [world]; rewrite Hw.
  destruct (H2 w) as [Ho' [Hw' Ht']]; auto.
Qed.

Lemma printsOnly_logProducts allProducts : forall i,
  printsOnly (logProducts i allProducts).
Proof.
  induction allProducts as [|p rest IH]; intros i; simpl;
    [apply printsOnly_ret|apply printsOnly_seq; [apply printsOnly_log|apply IH]].
Qed.

Lemma printsOnly_same c1 c2 :
  printsOnly c1 -> printsOnly c2 -> sameButLogs c1 c2.
Proof.
  intros H1 H2 w; destruct (H1 w) as [-> [-> ->]];
    destruct (H2 w) as [-> [-> ->]]; auto.
Qed.

Lemma sameButLogs_while S (cond : S -> bool) (body1 body2 : S -> M S) :
  (forall s, sameButLogs (body1 s) (body2 s)) ->
  forall fuel s, sameButLogs (while fuel cond body1 s) (while fuel cond body2 s).
Proof.
  intros Hb; induction fuel as [|fuel IH]; intros s; simpl.
  - apply sameButLogs_refl.
  - destruct (cond s); [|apply sameButLogs_refl].
    apply sameButLogs_bind; [apply Hb|apply IH].
Qed.

Lemma sameButLogs_loop S A (body1 body2 : S -> M (Step S A)) :
  (forall s, sameButLogs (body1 s) (body2 s)) ->
  forall fuel s, sameButLogs (loop fuel body1 s) (loop fuel body2 s).
Proof.
  intros Hb; induction fuel as [|fuel IH]; intros s; simpl.
  - apply sameButLogs_refl.
  - apply sameButLogs_bind; [apply Hb|].
    intros [s'|a]; [apply IH|apply sameButLogs_refl].
Qed.

Lemma sameButLogs_tryCatch A (b1 b2 : M A) (h1 h2 : Error -> M A) :
  sameButLogs b1 b2 -> (forall e, sameButLogs (h1 e) (h2 e)) ->
  sameButLogs (tryCatch b1 h1) (tryCatch b2 h2).
Proof.
  intros Hb Hh w; destruct (Hb w) as [Ho [Hw Ht]].
  unfold tryCatch; rewrite <- Ho.
  destruct (outcome (b1 w)) as [a|e|] eqn:H1; auto.
  cbn [outcome world trace]; rewrite !unlogged_app, Ht, <- Hw.
  destruct (Hh e (world (b1 w))) as [Ho' [Hw' Ht']].
  now rewrite Ho', Hw', Ht'.
Qed.

Lemma sameButLogs_tryFinally A (b1 b2 : M A) (f1 f2 : M unit) :
  sameButLogs b1 b2 -> sameButLogs f1 f2 ->
  sameButLogs (tryFinally b1 f1) (tryFinally b2 f2).
Proof.
  intros Hb Hf w; destruct (Hb w) as [Ho [Hw Ht]].
  unfold tryFinally; rewrite <- Ho.
  destruct (Hf (world (b1 w))) as [Ho' [Hw' Ht']].
  destruct (outcome (b1 w)) as [a|e|] eqn:H1; auto;
    cbn [outcome world trace]; rewrite !unlogged_app, Ht, <- Hw;
    now rewrite Ho', Hw', Ht'.
Qed.

Lemma sameButLogs_attempt A (c1 c2 : M A) :
  sameButLogs c1 c2 -> sameButLogs (attempt c1) (attempt c2).
Proof.
  intros Hc w; destruct (Hc w) as [Ho [Hw Ht]].
  unfold attempt; cbn [outcome world trace]; now rewrite Ho.
Qed.

End SameButLogs.

Ltac same_step :=
  lazymatch goal with
  | |- sameButLogs (when _ _) (when _ _) =>
      apply printsOnly_same; apply printsOnly_when;
      repeat first [ apply printsOnly_log | apply printsOnly_when
                   | apply printsOnly_logProducts | apply printsOnly_seq ]
  | |- sameButLogs (bind _ _) (bind _ _) =>
      apply sameButLogs_bind; [|intros ?]
  | |- sameButLogs (while _ _ _ _) (while _ _ _ _) =>
      apply sameButLogs_while; intros ?
  | |- sameButLogs (loop _ _ _) (loop _ _ _) =>
      apply sameButLogs_loop; intros ?
  | |- sameButLogs (if ?b then _ else _) (if ?b then _ else _) =>
      destruct b
  | |- sameButLogs (match ?x with _ => _ end) (match ?x with _ => _ end) =>
      destruct x
  | |- sameButLogs ?c ?c => apply sameButLogs_refl
  end.

Section Verbosity.
Context {E : Env}.

Lemma scrapeWithBrowser_sameButLogs argv1 argv2 fuel browser :
  url argv1 = url argv2 -> csvName argv1 = csvName argv2 ->
  sameButLogs (scrapeWithBrowser argv1 fuel browser)
              (scrapeWithBrowser argv2 fuel browser).
Proof.
  intros Hu Hc.
  unfold scrapeWithBrowser, scrapeAllProducts, scrapePage, retryLoop,
    retryAttempt, changeStore, writeToCSV; cbv zeta; cbn [fst snd].
  rewrite Hu, Hc.
  repeat same_step.
Qed.

(** X12. The verbose flag and the worker identifier change only what is
    printed: two runs of the worker on the same URL, CSV path and world
    complete alike, leave the same world, and make the same calls with
    the same waits in the same order. *)
Theorem verbose_only_prints wid1 wid2 v1 v2 u csv AUTH fuel w :
  let r1 := main {| workerId := wid1; url := u; csvName := csv; verbose := v1 |}
              AUTH fuel w in
  let r2 := main {| workerId := wid2; url := u; csvName := csv; verbose := v2 |}
              AUTH fuel w in
  outcome r1 = outcome r2
  /\ world r1 = world r2
  /\ unlogged (trace r1) = unlogged (trace r2).
Proof.
  cbv zeta.
  match goal with
  | |- outcome (?c1 w) = outcome (?c2 w) /\ _ =>
      revert w; change (sameButLogs c1 c2)
  end.
  unfold main, tryWithLocal.
  same_step; [same_step|].
  same_step; [apply sameButLogs_attempt, sameButLogs_refl|].
  match goal with
  | a : (Error + Browser)%type |- _ => destruct a as [e|browser]
  end.
  - apply sameButLogs_refl.
  - apply sameButLogs_tryFinally; [|apply sameButLogs_refl].
    apply sameButLogs_tryCatch; [|intros; apply sameButLogs_refl].
    now apply scrapeWithBrowser_sameButLogs.
Qed.

End Verbosity.

(** ** The report of the result *)

Section Report.
Context {E : Env}.
Variable argv : Argv.

Lemma reports_bind A B (Q : B -> Trace -> Prop) (c : M A) (f : A -> M B) :
  only notReport c -> (forall a, reports Q (f a)) -> reports Q (bind c f).
Proof.
  intros Hc Hf w b Hb; apply bind_ok_inv in Hb.
  destruct Hb as [a [_ [Hb [Ht _]]]].
  destruct (Hf a _ _ Hb) as [d1 [d2 [Hd [H1 H2]]]].
  exists (trace (c w) ++ d1), d2; rewrite Ht, Hd, app_assoc.
  split; [reflexivity|]; split; [|exact H2].
  apply Forall_app; split; [apply Hc|exact H1].
Qed.

Lemma logProducts_notReport allProducts : forall i,
  only notReport (logProducts i allProducts).
Proof.
  induction allProducts as [|p rest IH]; intros i; simpl; auto with only.
Qed.

Lemma writeToCSV_trace data outPath w :
  exists q rest,
    trace (writeToCSV argv data outPath w)
    = Did (WriteFile outPath (csvText data)) q :: rest
    /\ Forall (fun e => notReport e = true) rest
    /\ (outcome (writeToCSV argv data outPath w) = Ok tt -> q = inr tt).
Proof.
  unfold writeToCSV; cbv zeta; rewrite csvText_fold, bind_perform.
  destruct (answer (WriteFile outPath (csvText data)) w) as [[e|[]] w1];
    cbn [fst snd].
  { exists (inl e), []; repeat split; [constructor|discriminate]. }
  exists (inr tt); eexists; split; [reflexivity|]; split; [|reflexivity].
  by_only.
Qed.

Lemma scrapeWithBrowser_reports fuel browser :
  reports (fun products d =>
             exists rest,
               d = [Logged (Json products);
                    Did (WriteFile (csvName argv) (csvText products)) (inr tt)]
                   ++ rest
               /\ Forall (fun e => notReport e = true) rest)
    (scrapeWithBrowser argv fuel browser).
Proof.
  pose proof logProducts_notReport.
  unfold scrapeWithBrowser, scrapeAllProducts, scrapePage, retryLoop,
    retryAttempt, scrollAndWaitForStability, stabilityCheck,
    scrollUntilNoChange, scrollOnce, changeStore; cbv zeta.
  repeat (apply reports_bind; [solve [auto 60 with only]|intros ?]).
  cbv zeta; cbn [app].
  intros w products Hok; exists []; eexists; split; [reflexivity|].
  split; [constructor|].
  revert Hok; rewrite bind_log; cbn [after outcome trace].
  rewrite bind_outcome, bind_trace; cbn [world log].
  match goal with
  | |- context [writeToCSV argv ?data ?p w] =>
      destruct (writeToCSV_trace data p w) as [q [rest [Ht [Hrest Hq]]]];
      rewrite Ht; clear Ht;
      destruct (outcome (writeToCSV argv data p w)) as [[]| |];
      try discriminate
  end.
  rewrite (Hq eq_refl); cbn [bind log ret outcome trace world app].
  intros Hok; inversion Hok; subst products.
  eexists; split; [reflexivity|].
  apply Forall_app; split; [exact Hrest|repeat constructor].
Qed.

(** X15. When the worker returns records, the JSON it has printed and the
    text it has written to [csvName] are those of the records it returns;
    the JSON is printed once, immediately before the file is written
    once, and the process exit is the last event. *)
Theorem main_reports_result AUTH fuel w p ps :
  let r := main argv AUTH fuel w in
  outcome r = Ok (p :: ps) ->
  exists before rest,
    trace r
    = before
      ++ [Logged (Json (p :: ps));
          Did (WriteFile (csvName argv) (csvText (p :: ps))) (inr tt)]
      ++ rest ++ [Exited 0]
    /\ Forall (fun e => notReport e = true) before
    /\ Forall (fun e => notReport e = true) rest.
Proof.
  intros r; subst r; unfold main, tryWithLocal.
  rewrite bind_when_log.
  set (L := if verbose argv then _ else _).
  assert (HL : Forall (fun e => notReport e = true) L)
    by (subst L; destruct (verbose argv); repeat constructor).
  rewrite bind_attempt, connectToBrowser_run; cbn [outcome world trace].
  destruct (answer (Connect AUTH) w) as [[e0|browser] w1]; cbn [fst snd].
  { cbn [after outcome trace world tryFinally bind log ret cleanup exit].
    discriminate. }
  pose proof (@scrapeWithBrowser_reports fuel browser w1) as Hr.
  unfold tryFinally, tryCatch.
  destruct (scrapeWithBrowser argv fuel browser w1) as [[products|e1|] w2 d2];
    cbn [outcome world trace after bind log ret app] in *;
    try discriminate; rewrite cleanup_some;
    destruct (answer (CloseBrowser browser) w2) as [[e'|[]] w3];
    cbn [fst snd outcome world trace after]; try discriminate.
  intros Hok; inversion Hok; subst products.
  destruct (Hr _ eq_refl) as [d1 [d3 [-> [Hd1 [rest [-> Hrest]]]]]].
  exists (L ++ Did (Connect AUTH) (inr browser) :: d1),
         (rest ++ [Logged (Info "Closing the browser..." []);
                   Did (CloseBrowser browser) (inr tt);
                   Logged (Info "Browser closed." [])]).
  split; [|split].
  - repeat (rewrite <- ?app_assoc; cbn [app]); reflexivity.
  - apply Forall_app; split; [exact HL|constructor; [reflexivity|exact Hd1]].
  - apply Forall_app; split; [exact Hrest|repeat constructor].
Qed.

End Report.

Lemma main_reports_result_witness :
  exists p ps before rest,
    outcome (main (E := siteEnv) sampleArgv "" 10 twoPageSite) = Ok (p :: ps)
    /\ trace (main (E := siteEnv) sampleArgv "" 10 twoPageSite)
       = before
         ++ [Logged (Json (p :: ps));
             Did (WriteFile (csvName sampleArgv) (csvText (p :: ps))) (inr tt)]
         ++ rest ++ [Exited 0].
Proof.
  assert (H : outcome (main (E := siteEnv) sampleArgv "" 10 twoPageSite)
              = Ok (map extractFieldsFromCard (cardsFrom 1 34)))
    by (vm_compute; reflexivity).
  change (map extractFieldsFromCard (cardsFrom 1 34))
    with (extractFieldsFromCard (numberedCard 1)
            :: map extractFieldsFromCard (cardsFrom 2 33)) in H.
  destruct (@main_reports_result siteEnv sampleArgv "" 10 twoPageSite _ _ H)
    as [before [rest [Ht _]]].
  eexists _, _, before, rest; split; [exact H|exact Ht].
Defined.

(** ** Extractions and navigations of a run *)

Section Budget.
Context {E : Env}.
Variable argv : Argv.

Lemma count_bind_skip (f p : Event -> bool) A B (c : M A) (k : A -> M B) n w :
  only p c -> (forall e, p e = true -> f e = false) ->
  (forall a w', count f (trace (k a w')) <= n) ->
  count f (trace (bind c k w)) <= n.
Proof.
  intros Hc Hp Hk; rewrite bind_trace, count_app, (@count_none _ _ _ Hp (Hc w)).
  destruct (outcome (c w)); [apply Hk|apply Nat.le_0_l..].
Qed.

Lemma count_bind_last (f p : Event -> bool) A B (c : M A) (k : A -> M B) n w :
  count f (trace (c w)) <= n -> (forall a, only p (k a)) ->
  (forall e, p e = true -> f e = false) ->
  count f (trace (bind c k w)) <= n.
Proof.
  intros Hc Hk Hp; rewrite bind_trace, count_app.
  destruct (outcome (c w)) as [a| |];
    [rewrite (@count_none _ _ _ Hp (Hk a _))|change (count f []) with 0..]; lia.
Qed.

Lemma count_bind_ok (f p : Event -> bool) A B (c : M A) (k : A -> M B) w b n :
  only p c -> (forall e, p e = true -> f e = false) ->
  (forall a w', outcome (k a w') = Ok b -> count f (trace (k a w')) = n) ->
  outcome (bind c k w) = Ok b -> count f (trace (bind c k w)) = n.
Proof.
  intros Hc Hp Hk Hb; apply bind_ok_inv in Hb.
  destruct Hb as [a [_ [Hb [Ht _]]]].
  rewrite Ht, count_app, (@count_none _ _ _ Hp (Hc w)); now apply Hk.
Qed.

Lemma scrapeAllProducts_pages fuel page initialUrl w :
  let r := scrapeAllProducts argv fuel page initialUrl w in
  exists P S,
    Forall (fun e => isFraming e = true) P
    /\ Forall (fun e => isFraming e = true) S
    /\ ((trace r = P ++ S /\ forall res, outcome r <> Ok res)
        \/ exists w1,
             trace r
             = P ++ trace (loop fuel (scrapePage argv fuel page) ([], 0) w1)
                 ++ S
             /\ forall res,
                  outcome r = Ok res ->
                  outcome (loop fuel (scrapePage argv fuel page) ([], 0) w1)
                  = Ok res).
Proof.
  intros r; subst r; unfold scrapeAllProducts.
  rewrite bind_log, bind_perform.
  destruct (answer (Goto page initialUrl (Some "networkidle2"%string)) w)
    as [[e|[]] w1]; cbn [fst snd].
  { exists [Logged (Info "Navigating to initial URL" []);
             Did (Goto page initialUrl (Some "networkidle2"%string)) (inl e)],
           [].
    split; [|split; [constructor|left; split]].
    - repeat constructor.
    - cbn [after trace]; now rewrite app_nil_r.
    - discriminate. }
  rewrite bind_when_log, bind_delay, !after_after.
  cbn [after trace outcome]; rewrite bind_trace, bind_outcome.
  match goal with
  | |- context [?P0 ++ trace ?l ++ ?S0] =>
      exists P0, S0; split; [|split; [|right; exists (elapse 5000 w1); split;
                                        [reflexivity|]]]
  end.
  - destruct (verbose argv); repeat constructor.
  - destruct (outcome (loop fuel _ _ _)); repeat constructor.
  - intros res.
    destruct (outcome (loop fuel _ _ _)) as [a| |]; try discriminate.
    cbn [bind log ret outcome]; intros H; inversion H; reflexivity.
Qed.

Lemma scrapePage_count fuel page st w :
  count isQueryCards (trace (scrapePage argv fuel page st w)) <= 3.
Proof.
  unfold scrapePage; cbv zeta.
  do 5 (apply (@count_bind_skip isQueryCards (fun e => negb (isQueryCards e)));
        [ unfold scrollAndWaitForStability, stabilityCheck,
            scrollUntilNoChange, scrollOnce; solve [auto 40 with only]
        | intros e He; now apply negb_true_iff in He
        | intros ? ? ]).
  apply (@count_bind_last isQueryCards (fun e => negb (isQueryCards e)));
    [apply retryLoop_count| |intros e He; now apply negb_true_iff in He].
  intros data; auto 40 with only.
Qed.

Lemma scrapePage_budget fuel page all pc w :
  count isQueryCards (trace (scrapePage argv fuel page (all, pc) w))
  <= 3 * count isScreenshot (trace (scrapePage argv fuel page (all, pc) w)).
Proof.
  pose proof (scrapePage_count fuel page (all, pc) w) as Hc.
  destruct (scrapePage_shape argv fuel page all pc w)
    as [A [B [Ht [HA HB]]]].
  rewrite Ht in *; clear Ht.
  destruct HB as [[-> _]|[q [B' [-> [HB' _]]]]].
  - rewrite app_nil_r, (@count_none _ _ _ plain_not_query HA).
    apply Nat.le_0_l.
  - rewrite (count_app isScreenshot).
    change (count isScreenshot (Did (Screenshot page (S pc)) q :: B'))
      with (S (count isScreenshot B')).
    lia.
Qed.

Lemma scrapeLoop_budget fuel inner page : forall all pc w,
  count isQueryCards
    (trace (loop fuel (scrapePage argv inner page) (all, pc) w))
  <= 3 * count isScreenshot
           (trace (loop fuel (scrapePage argv inner page) (all, pc) w)).
Proof.
  induction fuel as [|fuel IH]; intros all pc w; [apply Nat.le_0_l|].
  cbn [loop]; rewrite bind_trace, !count_app.
  pose proof (scrapePage_budget inner page all pc w) as Hp.
  destruct (outcome (scrapePage argv inner page (all, pc) w))
    as [[[all' pc']|a]| |]; cbn [ret trace];
    change (count isQueryCards []) with 0;
    change (count isScreenshot []) with 0; try lia.
  specialize (IH all' pc' (world (scrapePage argv inner page (all, pc) w))).
  lia.
Qed.

Lemma framing_not_query e : isFraming e = true -> isQueryCards e = false.
Proof. destruct e as [T c r| | |]; try reflexivity; now destruct c. Qed.

Lemma framing_not_screenshot e : isFraming e = true -> isScreenshot e = false.
Proof. destruct e as [T c r| | |]; try reflexivity; now destruct c. Qed.

Lemma framing_not_navigation e : isFraming e = true -> isNavigation e = false.
Proof. destruct e as [T c r| | |]; try reflexivity; now destruct c. Qed.

(** X16. A run extracts at most three times for each screenshot it has
    taken, so at most 60 times in all. *)
Theorem extraction_budget fuel page initialUrl w :
  let r := scrapeAllProducts argv fuel page initialUrl w in
  count isQueryCards (trace r) <= 3 * count isScreenshot (trace r)
  /\ count isQueryCards (trace r) <= 60.
Proof.
  intros r.
  assert (H : count isQueryCards (trace r) <= 3 * count isScreenshot (trace r)).
  { subst r.
    destruct (scrapeAllProducts_pages fuel page initialUrl w)
      as [P [S [HP [HS [[Ht _]|[w1 [Ht _]]]]]]]; rewrite Ht, !count_app,
      !(@count_none _ _ _ framing_not_query HP),
      !(@count_none _ _ _ framing_not_query HS),
      !(@count_none _ _ _ framing_not_screenshot HP),
      !(@count_none _ _ _ framing_not_screenshot HS).
    - apply Nat.le_0_l.
    - pose proof (scrapeLoop_budget fuel fuel page [] 0 w1); lia. }
  split; [exact H|].
  pose proof (proj1 (scrapeAllProducts_trace argv fuel page initialUrl w)) as Hs.
  fold r in Hs; unfold MAX_PAGES in Hs; lia.
Qed.

End Budget.

Section Navigation.
Context {E : Env}.
Variable argv : Argv.

Ltac skip_navless :=
  apply (@count_bind_ok _ isNavigation (fun e => negb (isNavigation e)));
  [ solve [auto 40 with only]
  | intros e He; now apply negb_true_iff in He
  | intros ? ? ].

Lemma scrapePage_navigations fuel page st w x :
  outcome (scrapePage argv fuel page st w) = Ok x ->
  count isNavigation (trace (scrapePage argv fuel page st w))
  = match x with
    | Continue _ => 1
    | Break _ => 0
    end.
Proof.
  unfold scrapePage, retryLoop, retryAttempt, scrollAndWaitForStability,
    stabilityCheck, scrollUntilNoChange, scrollOnce; cbv zeta.
  repeat skip_navless.
  destruct (MAX_PAGES <=? S (snd st)).
  { skip_navless; cbn [ret outcome trace]; intros H; inversion H; reflexivity. }
  do 2 skip_navless.
  match goal with
  | |- context [match ?nb with Some _ => _ | None => _ end] =>
      destruct nb as [btn|]
  end.
  2: { skip_navless; cbn [ret outcome trace]; intros H; inversion H;
       reflexivity. }
  skip_navless.
  match goal with
  | |- context [if ?b then _ else _] => destruct b
  end.
  { skip_navless; cbn [ret outcome trace]; intros H; inversion H; reflexivity. }
  skip_navless.
  rewrite bind_perform.
  destruct (answer (ClickAndWaitForNavigation page btn) _) as [[e|[]] w1];
    cbn [fst snd after outcome trace bind delay ret app]; [discriminate|].
  intros H; inversion H; reflexivity.
Qed.

Lemma scrapePage_one_screenshot fuel page all pc w x :
  outcome (scrapePage argv fuel page (all, pc) w) = Ok x ->
  count isScreenshot (trace (scrapePage argv fuel page (all, pc) w)) = 1.
Proof.
  intros Hx.
  destruct (scrapePage_shape argv fuel page all pc w)
    as [A [B [Ht [HA [[_ Hno]|[q [B' [-> [HB' _]]]]]]]]];
    [now elim (Hno _ Hx)|].
  rewrite Ht, count_app, (@count_none _ _ _ plain_not_screenshot HA).
  change (count isScreenshot (Did (Screenshot page (S pc)) q :: B'))
    with (S (count isScreenshot B')).
  now rewrite (@count_none _ _ _ notScreenshot_false HB').
Qed.

Lemma scrapeLoop_navigations fuel inner page : forall all pc w res,
  outcome (loop fuel (scrapePage argv inner page) (all, pc) w) = Ok res ->
  S (count isNavigation
       (trace (loop fuel (scrapePage argv inner page) (all, pc) w)))
  = count isScreenshot
      (trace (loop fuel (scrapePage argv inner page) (all, pc) w)).
Proof.
  induction fuel as [|fuel IH]; intros all pc w res Hres; [discriminate|].
  cbn [loop] in *; apply bind_ok_inv in Hres.
  destruct Hres as [x [Hx [Hres [Ht _]]]]; rewrite Ht, !count_app.
  rewrite (scrapePage_navigations _ _ _ _ Hx),
    (scrapePage_one_screenshot _ _ _ _ _ Hx).
  destruct x as [[all' pc']|a].
  - rewrite <- (IH _ _ _ _ Hres); reflexivity.
  - reflexivity.
Qed.

(** X17. A run that returns has clicked "next" and waited for the
    navigation once less than it has taken screenshots: once between two
    pages, and not after the last one. *)
Theorem navigations_between_pages fuel page initialUrl w res :
  let r := scrapeAllProducts argv fuel page initialUrl w in
  outcome r = Ok res ->
  S (count isNavigation (trace r)) = count isScreenshot (trace r).
Proof.
  intros r Hres; subst r.
  destruct (scrapeAllProducts_pages argv fuel page initialUrl w)
    as [P [S' [HP [HS [[_ Hno]|[w1 [Ht Hok]]]]]]]; [now elim (Hno res)|].
  rewrite Ht, !count_app,
    !(@count_none _ _ _ framing_not_navigation HP),
    !(@count_none _ _ _ framing_not_navigation HS),
    !(@count_none _ _ _ framing_not_screenshot HP),
    !(@count_none _ _ _ framing_not_screenshot HS).
  pose proof (scrapeLoop_navigations _ _ _ _ _ _ (Hok _ Hres)); lia.
Qed.

(** X18. The listing printed when verbose has one line for each product,
    in the order of the result, numbered from [i + 1]; it changes nothing
    in the world and cannot fail. *)
Theorem logProducts_lines allProducts : forall i w,
  logProducts i allProducts w
  = {| outcome := Ok tt; world := w;
       trace := map (fun line => Logged (ProductLine (fst line) (snd line)))
                  (combine (seq (S i) (List.length allProducts)) allProducts) |}.
Proof.
  induction allProducts as [|p rest IH]; intros i w; [reflexivity|].
  cbn [logProducts]; rewrite bind_log, IH; reflexivity.
Qed.

End Navigation.

Lemma navigations_between_pages_witness :
  outcome (scrapeAllProducts (E := siteEnv) sampleArgv 10 0 "" twoPageSite)
  = Ok (map extractFieldsFromCard (cardsFrom 1 34))
  /\ S (count isNavigation
          (trace (scrapeAllProducts (E := siteEnv) sampleArgv 10 0 ""
                    twoPageSite)))
     = count isScreenshot
         (trace (scrapeAllProducts (E := siteEnv) sampleArgv 10 0 ""
                   twoPageSite)).
Proof.
  assert (H : outcome (scrapeAllProducts (E := siteEnv) sampleArgv 10 0 ""
                         twoPageSite)
              = Ok (map extractFieldsFromCard (cardsFrom 1 34)))
    by (vm_compute; reflexivity).
  split; [exact H|].
  exact (@navigations_between_pages siteEnv sampleArgv 10 0 "" twoPageSite _ H).
Defined.

(** ** The arguments cli.js gives the worker *)

Lemma lacks_append c s1 s2 :
  lacks c (String.append s1 s2) = lacks c s1 && lacks c s2.
Proof.
  induction s1 as [|c' s1 IH]; simpl; [reflexivity|].
  now rewrite IH, andb_assoc.
Qed.

Lemma lacks_uint c u :
  (forall d, In d ["0"; "1"; "2"; "3"; "4"; "5"; "6"; "7"; "8"; "9"]%char ->
             Ascii.eqb c d = false) ->
  lacks c (NilEmpty.string_of_uint u) = true.
Proof.
  intros H; induction u; simpl; [reflexivity|..];
    rewrite IHu, H; simpl; auto 12.
Qed.

Lemma lacks_padStart2 c s :
  Ascii.eqb c "0" = false -> lacks c s = true -> lacks c (Cli.padStart2 s) = true.
Proof.
  intros H0 Hs; unfold Cli.padStart2.
  destruct (String.length s) as [|[|n]]; simpl; [now rewrite H0| |exact Hs].
  now rewrite H0, Hs.
Qed.

Lemma lacks_formattedDate c today :
  (forall d, In d ["0"; "1"; "2"; "3"; "4"; "5"; "6"; "7"; "8"; "9"]%char ->
             Ascii.eqb c d = false) ->
  Ascii.eqb c "-" = false ->
  lacks c (Cli.formattedDate today) = true.
Proof.
  intros Hd Hm; unfold Cli.formattedDate, Cli.stringOfNat.
  assert (H0 : Ascii.eqb c "0" = false) by (apply Hd; simpl; auto).
  rewrite !lacks_append, lacks_uint, !lacks_padStart2; simpl; rewrite ?Hm;
    auto using lacks_uint.
Qed.

Lemma index_lacks c sub s :
  lacks c s = true -> String.index 0 (String c sub) s = None.
Proof.
  induction s as [|c' s IH]; intros H; [reflexivity|].
  simpl in H; apply andb_true_iff in H; destruct H as [Hc Hs].
  rewrite index_cons; simpl.
  destruct (ascii_dec c c') as [->|Hne];
    [rewrite Ascii.eqb_refl in Hc; discriminate|].
  now rewrite (IH Hs).
Qed.

Lemma index_skip c sub s1 s2 :
  lacks c s1 = true ->
  String.index 0 (String c sub) s2 = None ->
  String.index 0 (String c sub) (String.append s1 s2) = None.
Proof.
  intros H1 H2; induction s1 as [|c' s1 IH]; [exact H2|].
  simpl in H1; apply andb_true_iff in H1; destruct H1 as [Hc Hs].
  simpl String.append; rewrite index_cons; simpl.
  destruct (ascii_dec c c') as [->|Hne];
    [rewrite Ascii.eqb_refl in Hc; discriminate|].
  now rewrite (IH Hs).
Qed.

(** X19. Of the three outputs cli.js names, whatever the date is, the
    worker has the first two sorted, "SPF_" and "PT_", and not the third,
    "PLY_": the date holds digits and dashes only, so it can bring in
    neither "PT_" nor "SPF_". *)
Theorem cli_targets_sorting today :
  map (fun target =>
         includes (Cli.csv target) "PT_" || includes (Cli.csv target) "SPF_")
    (Cli.urls today)
  = [true; true; false].
Proof.
  assert (HP : lacks "P" (Cli.formattedDate today) = true)
    by (apply lacks_formattedDate; [|reflexivity];
        intros d Hd; simpl in Hd; intuition (subst; reflexivity)).
  assert (HS : lacks "S" (Cli.formattedDate today) = true)
    by (apply lacks_formattedDate; [|reflexivity];
        intros d Hd; simpl in Hd; intuition (subst; reflexivity)).
  unfold Cli.urls; cbn [map Cli.csv]; revert HP HS.
  generalize (Cli.formattedDate today); intros fd HP HS.
  assert (Hin : forall sub,
            includes (String.append "CSVs/Unsorted/"
                        (String.append sub (String.append fd ".csv"))) sub
            = true).
  { intros sub; unfold includes.
    destruct (proj2 (index_append sub
                       (String.append "CSVs/Unsorted/"
                          (String.append sub (String.append fd ".csv")))))
      as [n ->]; [|reflexivity].
    now exists "CSVs/Unsorted/"%string, (String.append fd ".csv"). }
  pose proof (Hin "SPF_"%string) as H1; pose proof (Hin "PT_"%string) as H2.
  cbn [String.append] in H1, H2 |- *.
  rewrite H1, H2, orb_true_r; cbn [orb]; do 3 f_equal.
  apply orb_false_iff; unfold includes.
  assert (Hnone : forall o : option nat,
            o = None -> match o with Some _ => true | None => false end = false)
    by (now intros o ->).
  split; apply Hnone.
  - change (String.index 0 "PT_"
              (String.append "CSVs/Unsorted/"
                 (String "P" (String.append "LY_" (String.append fd ".csv"))))
            = None).
    rewrite index_skip; [reflexivity|reflexivity|].
    rewrite index_cons; simpl.
    rewrite index_lacks; [reflexivity|].
    now rewrite !lacks_append, HP.
  - change (String.index 0 "SPF_"
              (String.append "C"
                 (String "S"
                    (String.append "Vs/Unsorted/PLY_"
                       (String.append fd ".csv"))))
            = None).
    rewrite index_skip; [reflexivity|reflexivity|].
    rewrite index_cons; simpl.
    rewrite index_lacks; [reflexivity|].
    now rewrite !lacks_append, HS.
Qed.

(** X20. The verbose flag of cli.js reaches the worker unchanged through
    the arguments, and the worker is verbose for the argument "true" and
    for nothing else, a missing argument included. *)
Theorem verbose_round_trip :
  (forall verbose, readVerbose (Some (Cli.verboseArg verbose)) = verbose)
  /\ (forall arg, readVerbose arg = true <-> arg = Some "true"%string).
Proof.
  split; [now intros []|].
  intros [s|]; simpl; [|split; discriminate].
  rewrite String.eqb_eq; split; [now intros ->|now intros [= ->]].
Qed.
